(** * Resume & GitHub Job Match Analyzer (app.py): a shallow embedding

    The development follows [src/app.py] and [src/main.py]:
    - [Chars], [Text]: Python [str] values and the string methods the code
      calls ([strip], [startswith], [in], [lower], [replace], slicing);
    - [Re]: the backtracking semantics of the one regular expression the
      code builds (in [extract_section]), flags [DOTALL | IGNORECASE];
    - [App]: [fetch_github_repos], [analyze_with_gemini],
      [answer_with_gemini], [display_results] with its local
      [extract_section], written in a small logging and exception monad;
    - [Page]: the blocks of the script of app.py that act on the session;
    - [Launcher]: [run_streamlit], [wait_for_streamlit], [cleanup] and
      [main] of main.py.

    Text is a list of characters; a character is a code point in the range
    U+0000..U+00FF (Rocq's [ascii]), on which the character predicates below
    agree with Python's. *)

From Stdlib Require Import Ascii String List NArith Lia Bool.
From stdpp Require Import base option list gmap strings pretty.
Import ListNotations.

#[local] Open Scope list_scope.
#[local] Open Scope nat_scope.
#[local] Set Warnings "-register-all,-abstract-large-number".

(** ** Characters *)

Module Chars.

Definition code (c : ascii) : N := N_of_ascii c.

Definition between (lo hi : N) (c : ascii) : bool :=
  ((lo <=? code c) && (code c <=? hi))%N.

(** [str.isspace] on one character; also the class [\s] of [re] for
    [str] patterns: TAB..CR, FS..US, SPACE, NEL and NBSP. *)
Definition isspace (c : ascii) : bool :=
  between 9 13 c || between 28 32 c || (code c =? 133)%N || (code c =? 160)%N.

(** The class [\d] of [re]: a decimal digit; below U+0100 these are
    the ten characters 0..9. *)
Definition isdigit (c : ascii) : bool := between 48 57 c.

(** [str.lower] on one character: A..Z and the capital letters
    U+00C0..U+00DE (U+00D7, the multiplication sign, is not one). *)
Definition lower (c : ascii) : ascii :=
  if between 65 90 c || (between 192 222 c && negb (code c =? 215)%N)
  then ascii_of_N (code c + 32)
  else c.

(** A literal of a pattern compiled with [IGNORECASE] matches a
    character when both have the same lower-case form. *)
Definition eq_nocase (p c : ascii) : bool :=
  bool_decide (lower c = lower p).

End Chars.

(** ** Text *)

Module Text.

Definition str := list ascii.

(** A Python literal. *)
Definition lit (s : string) : str := list_ascii_of_string s.

Definition truthy (s : str) : bool :=
  match s with [] => false | _ => true end.

Fixpoint lstrip (s : str) : str :=
  match s with
  | c :: s' => if Chars.isspace c then lstrip s' else s
  | [] => []
  end.

Definition rstrip (s : str) : str := rev (lstrip (rev s)).

(** [s.strip()] *)
Definition strip (s : str) : str := rstrip (lstrip s).

(** [s.startswith(p)] *)
Fixpoint startswith (s p : str) {struct p} : bool :=
  match p, s with
  | [], _ => true
  | a :: p', b :: s' => bool_decide (a = b) && startswith s' p'
  | _ :: _, [] => false
  end.

(** [p in s] *)
Fixpoint contains (p s : str) : bool :=
  startswith s p ||
  match s with
  | [] => false
  | _ :: s' => contains p s'
  end.

(** [s.lower()] *)
Definition lower (s : str) : str := map Chars.lower s.

(** [s.replace(a, b)] for one-character [a] and [b]. *)
Definition replace (a b : ascii) (s : str) : str :=
  map (fun c => if bool_decide (c = a) then b else c) s.

(** [s[i:j]] for [0 <= i <= j]. *)
Definition slice (i j : nat) (s : str) : str := take (j - i) (drop i s).

(** The line feed, [\n]. *)
Definition nl : ascii := "010"%char.

(** [str(n)] for a non-negative [int]. *)
Definition of_nat (n : nat) : str := lit (pretty n).

End Text.

Import Text.

(** ** The regular-expression engine

    [re.search] is a backtracking matcher: alternatives are tried left to
    right, a greedy repetition tries the longest run first and a lazy one
    the shortest, a look-ahead is matched on its own and consumes nothing,
    and the first complete match found from the leftmost possible start
    wins. The matcher below is written in continuation-passing style: the
    continuation [k] is the rest of the pattern, and returning [None] is
    backtracking. *)

Module Re.

Inductive class := Space | Digit | Any.

Definition in_class (cl : class) (c : ascii) : bool :=
  match cl with
  | Space => Chars.isspace c
  | Digit => Chars.isdigit c
  | Any => true                  (* [.] under [DOTALL] *)
  end.

Definition all_in (cl : class) (w : str) : Prop :=
  Forall (fun c => in_class cl c = true) w.

(** The pattern constructs the source uses. Every repetition in the
    pattern is over a one-character class. *)
Inductive regex :=
| Lit (s : str)                          (* literal text, [IGNORECASE] *)
| Bol                                     (* [^], no [MULTILINE] *)
| Eos                                     (* [\Z] *)
| Seq (r1 r2 : regex)
| Alt (r1 r2 : regex)                     (* [r1|r2] *)
| Rep (greedy : bool) (lo : nat) (cl : class)
                                          (* [c*], [c+], [c*?] *)
| Opt (r : regex)                         (* [r?], greedy *)
| Group (n : nat) (r : regex)             (* capturing group [n] *)
| Ahead (r : regex).                      (* [(?=r)] *)

(** The state of a match attempt: the position in the subject, the
    text from that position on, and the spans of the groups closed so
    far. *)
Record state := State {
  pos : nat;
  rest : str;
  groups : gmap nat (nat * nat)
}.

Definition advance (w : str) (st : state) : state :=
  State (pos st + length w) (drop (length w) (rest st)) (groups st).

Definition cont := state -> option state.

Definition or_else (a b : option state) : option state :=
  match a with Some r => Some r | None => b end.

(** Literal text at the current position. *)
Fixpoint lit_prefix (p s : str) : bool :=
  match p, s with
  | [], _ => true
  | a :: p', c :: s' => Chars.eq_nocase a c && lit_prefix p' s'
  | _ :: _, [] => false
  end.

(** [cl{lo,}] greedy: one more character first, the rest of the pattern
    after. *)
Fixpoint rep_greedy (cl : class) (lo : nat) (k : cont)
    (p : nat) (s : str) (g : gmap nat (nat * nat)) : option state :=
  match s with
  | c :: s' =>
      if in_class cl c then
        or_else (rep_greedy cl (pred lo) k (S p) s' g)
                (match lo with 0 => k (State p s g) | S _ => None end)
      else match lo with 0 => k (State p s g) | S _ => None end
  | [] => match lo with 0 => k (State p s g) | S _ => None end
  end.

(** [cl{lo,}?] lazy: the rest of the pattern first, one more character
    after. *)
Fixpoint rep_lazy (cl : class) (lo : nat) (k : cont)
    (p : nat) (s : str) (g : gmap nat (nat * nat)) : option state :=
  or_else (match lo with 0 => k (State p s g) | S _ => None end)
          (match s with
           | c :: s' =>
               if in_class cl c then rep_lazy cl (pred lo) k (S p) s' g
               else None
           | [] => None
           end).

Fixpoint run (r : regex) (k : cont) (st : state) : option state :=
  match r with
  | Lit s =>
      if lit_prefix s (rest st) then k (advance s st) else None
  | Bol => if pos st =? 0 then k st else None
  | Eos => match rest st with [] => k st | _ :: _ => None end
  | Seq r1 r2 => run r1 (run r2 k) st
  | Alt r1 r2 => or_else (run r1 k st) (run r2 k st)
  | Rep true lo cl => rep_greedy cl lo k (pos st) (rest st) (groups st)
  | Rep false lo cl => rep_lazy cl lo k (pos st) (rest st) (groups st)
  | Opt r1 => or_else (run r1 k st) (k st)
  | Group n r1 =>
      run r1 (fun st' =>
                k (State (pos st') (rest st')
                         (<[n := (pos st, pos st')]> (groups st')))) st
  | Ahead r1 =>
      match run r1 Some st with
      | Some st' => k (State (pos st) (rest st) (groups st'))
      | None => None
      end
  end.

(** A match object: the subject and the group spans. *)
Record match_object := Match {
  m_string : str;
  m_groups : gmap nat (nat * nat)
}.

(** [m.group(n)]; [None] for a group that took no part in the match. *)
Definition group (m : match_object) (n : nat) : option str :=
  match m_groups m !! n with
  | Some (i, j) => Some (slice i j (m_string m))
  | None => None
  end.

(** Start positions are tried from the current one to the end of the
    subject, the end included. *)
Fixpoint search_from (r : regex) (p : nat) (s : str) : option state :=
  or_else (run r Some (State p s ∅))
          (match s with
           | [] => None
           | _ :: s' => search_from r (S p) s'
           end).

(** [re.search(r, subject)] *)
Definition search (r : regex) (subject : str) : option match_object :=
  match search_from r 0 subject with
  | Some st => Some (Match subject (groups st))
  | None => None
  end.

End Re.

(** ** The application *)

Module App.

Import Re.

(** *** Exceptions, effects and the outside world *)

(** The exception classes the handlers of the code tell apart, all of
    them instances of [Exception]; the argument is [str(e)], and for the
    others [type(e).__name__] too. *)
Inductive exn :=
| RateLimitExceededException (message : str)
| UnknownObjectException (message : str)
| Exception (type_name message : str).

Definition exn_str (e : exn) : str :=
  match e with
  | RateLimitExceededException m | UnknownObjectException m => m
  | Exception _ m => m
  end.

Definition exn_type_name (e : exn) : str :=
  match e with
  | RateLimitExceededException _ => lit "RateLimitExceededException"
  | UnknownObjectException _ => lit "UnknownObjectException"
  | Exception t _ => t
  end.

(** The dictionary built for every kept repository. *)
Record repo_info := RepoInfo {
  info_name : str;
  info_description : str;
  info_readme : str
}.

(** The text of a request to the generative service. Both prompts are
    f-strings: a fixed template around the interpolated values kept
    here ([github_data] goes through [json.dumps]). *)
Inductive prompt :=
| analysis_prompt (resume_text : str) (github_data : list repo_info)
    (role company job_description : str)
| answer_prompt (resume_text : str) (github_data : list repo_info)
    (job_role Company_name job_description question : str).

(** What a call leaves behind: the Streamlit widgets it shows (the
    pictographs that decorate a few labels are left out) and the
    clients and requests it makes. *)
Inductive event :=
| st_subheader (body : str)
| st_markdown (body : str)
| st_error (body : str)
| st_warning (body : str)
| st_text_area (label value : str) (height : nat) (key : str)
| st_expander (label : str) (expanded : bool) (children : list event)
| st_sidebar_warning (body : str)
| st_sidebar_info (body : str)
| st_sidebar_caption (body : str)
| new_Github (login_or_token : option str)
| genai_configure (api_key : str)
| generate_content_call (model_name : str) (p : prompt).

(** PyGithub objects, as far as the code reads them. *)
Record Repository := {
  fork : bool;
  name : str;
  description : option str;
  get_readme : exn + str             (* [.content], base64 text *)
}.

(** A [PaginatedList] being iterated: it yields, ends, or raises while
    fetching its next page. *)
Inductive PaginatedList :=
| Done
| Yield (repo : Repository) (more : PaginatedList)
| Raise (e : exn).

Record NamedUser := {
  get_repos : str -> str -> PaginatedList     (* [sort], [direction] *)
}.

Record Github := {
  get_rate_limit : exn + (nat * nat);  (* [core.remaining], [core.limit] *)
  get_user : str -> exn + NamedUser
}.

(** An [icon=] argument: a text, kept as its code points (the icons of
    the code lie outside the characters of [str]). *)
Definition icon := list N.

(** What depends on the installed Streamlit: the icons it takes (the
    emoji of its table, its Material shortcodes) and the text of the
    exception it raises for any other, which quotes the icon. *)
Record Streamlit := {
  accepts_icon : icon -> bool;
  invalid_icon_message : icon -> str
}.

(** Everything outside the program. [secrets] is [None] when reading
    [st.secrets] raises (no secrets file, or one that cannot be parsed),
    which is taken to show nothing on the page; its entries are texts.
    [environ] is [os.environ] as the call finds it, before it reads the
    secret store. *)
Record world := {
  github : option str -> Github;
  secrets : option (gmap string str);
  environ : gmap string str;
  session_state : gmap string str;
  b64decode : str -> exn + str;
  decode_utf8_ignore : str -> str;
  generate_content : prompt -> exn + str;    (* [response.text] *)
  streamlit : Streamlit
}.

(** Computations that log events and may raise. *)
Definition M (A : Type) : Type := ((exn + A) * list event)%type.

Definition ret {A} (a : A) : M A := (inr a, []).
Definition lift {A} (r : exn + A) : M A := (r, []).
Definition emit (ev : event) : M unit := (inr tt, [ev]).

Definition bind {A B} (m : M A) (f : A -> M B) : M B :=
  match m with
  | (inl e, l) => (inl e, l)
  | (inr a, l) => let '(r, l') := f a in (r, l ++ l')
  end.

(** [try: m  except Exception as e: h e], inside a computation. *)
Definition try_except {A} (m : M A) (h : exn -> M A) : M A :=
  match m with
  | (inl e, l) => let '(r, l') := h e in (r, l ++ l')
  | (inr a, l) => (inr a, l)
  end.

(** The same around a whole function body whose handlers return. *)
Definition handle {A} (m : M A) (h : exn -> A * list event) : A * list event :=
  match m with
  | (inl e, l) => let '(a, l') := h e in (a, l ++ l')
  | (inr a, l) => (a, l)
  end.

Notation "'let*' x := m 'in' k" := (bind m (fun x => k))
  (at level 10, x name, m at level 100, k at level 200).
Notation "m ;; k" := (bind m (fun _ => k))
  (at level 100, k at level 200, right associativity).

(** Truth value of an optional string ([None] and [''] are false). *)
Definition truthy_opt (o : option str) : bool :=
  match o with Some s => truthy s | None => false end.

(** *** What Streamlit does behind two of the calls *)

(** Every icon Streamlit takes begins with [#], [*], a digit or [:]
    (a keycap, a shortcode), with U+00A9 or U+00AE, or with a code point
    from U+203C on: no emoji starts anywhere else. *)
Definition icon_start (c : N) : bool :=
  ((c =? 35) || (c =? 42) || ((48 <=? c) && (c <=? 58)) ||
   (c =? 169) || (c =? 174) || (8252 <=? c))%N.

(** The check an alert makes of its icon before it shows anything:
    [StreamlitAPIException] unless the icon is one the library takes. *)
Definition validate_icon (st : Streamlit) (i : icon) : exn + unit :=
  if match i with c :: _ => icon_start c | [] => false end && accepts_icon st i
  then inr tt
  else inl (Exception (lit "StreamlitAPIException") (invalid_icon_message st i)).

(** [st.sidebar.warning(body, icon=i)] *)
Definition st_sidebar_warning_icon (w : world) (body : str) (i : icon) : M unit :=
  lift (validate_icon (streamlit w) i) ;;
  emit (st_sidebar_warning body).

(** [st.secrets], when it is read, loads the store and copies its
    root-level entries into [os.environ], over what is there: the store
    as the code sees it, and the environment the reading leaves. *)
Definition read_secrets (w : world)
    : option (gmap string str) * gmap string str :=
  match secrets w with
  | Some s => (Some s, s ∪ environ w)
  | None => (None, environ w)
  end.

(** *** [fetch_github_repos] *)

Definition max_repos_to_process : nat := 50.

(** Lines 39-49: the token the function goes on with. The secret
    store is read only when the argument holds no token, and the
    environment is read after it. *)
Definition resolve_github_token (w : world)
    (github_token_from_input : option str) : option str :=
  let github_token := github_token_from_input in
  let '(github_token, os_environ) :=
    if negb (truthy_opt github_token) then
      let '(st_secrets, os_environ) := read_secrets w in
      (match st_secrets with
       | Some s =>
           match s !! "GITHUB_TOKEN"%string with
           | Some v => Some v
           | None => github_token
           end
       | None => github_token
       end, os_environ)
    else (github_token, environ w) in
  if negb (truthy_opt github_token)
  then os_environ !! "GITHUB_TOKEN"%string
  else github_token.

(** The [icon=] of line 59: the six code points U+201A, U+00F6, U+2020,
    U+00D4, U+220F, U+00E8. *)
Definition no_token_icon : icon := [8218; 246; 8224; 212; 8719; 232]%N.

(** The body of the inner [try]. *)
Definition read_readme (w : world) (repo : Repository) : M str :=
  let* content := lift (get_readme repo) in
  let* readme_bytes := lift (b64decode w content) in
  ret (decode_utf8_ignore w readme_bytes).

Definition make_repo_info (repo : Repository) (readme_content : str) : repo_info :=
  {| info_name := name repo;
     info_description :=
       (if truthy_opt (description repo)
        then default [] (description repo)
        else lit "No description provided.");
     info_readme :=
       (if truthy readme_content then take 8000 readme_content else []) |}.

(** The [for] loop; it returns [repo_data] and [processed_count]. *)
Fixpoint fetch_loop (w : world) (repos : PaginatedList)
    (repo_data : list repo_info) (processed_count : nat)
    : M (list repo_info * nat) :=
  match repos with
  | Done => ret (repo_data, processed_count)
  | Raise e => lift (inl e)
  | Yield repo more =>
      if negb (fork repo) then
        if max_repos_to_process <=? processed_count then
          emit (st_sidebar_info
                  (lit "Stopped fetching after processing " ++
                   of_nat max_repos_to_process ++
                   lit " non-forked repos to manage API usage.")) ;;
          ret (repo_data, processed_count)
        else
          let* readme_content :=
            try_except (read_readme w repo)
              (fun e =>
                 match e with
                 | UnknownObjectException _ => ret []
                 | _ => ret []
                 end) in
          fetch_loop w more
            (repo_data ++ [make_repo_info repo readme_content])
            (S processed_count)
      else fetch_loop w more repo_data processed_count
  end.

(** Lines 52-62: the client, with the token or without. *)
Definition make_client (w : world) (github_token : option str) : M Github :=
  if truthy_opt github_token then
    emit (new_Github github_token) ;;
    ret (github w github_token)
  else
    emit (new_Github None) ;;
    let g := github w None in
    st_sidebar_warning_icon w
      (lit "No GitHub token provided (checked input, secrets & env var). Using unauthenticated access (low rate limits: ~60/hr). May hit 'Rate Limit Exceeded'. Add a token for higher limits.")
      no_token_icon ;;
    let* rate_limit_info := lift (get_rate_limit g) in
    emit (st_sidebar_caption
            (lit "GitHub API (Unauth): " ++ of_nat (fst rate_limit_info) ++
             lit "/" ++ of_nat (snd rate_limit_info) ++
             lit " requests remaining.")) ;;
    ret g.

(** Lines 95-96: the note shown when nothing was collected. *)
Definition note_if_none (username : str) (repo_data : list repo_info)
    (processed_count : nat) : M unit :=
  if negb (match repo_data with [] => false | _ => true end)
     && (processed_count =? 0)
  then emit (st_sidebar_warning
               (lit "No non-forked public repositories found for user '" ++
                username ++ lit "'."))
  else ret tt.

(** Lines 51-97: the body of the outer [try]. *)
Definition fetch_body (w : world) (username : str) (github_token : option str)
    : M (list repo_info) :=
  let* g := make_client w github_token in
  let* user := lift (get_user g username) in
  let repos := get_repos user (lit "updated") (lit "desc") in
  let* out := fetch_loop w repos [] 0 in
  let repo_data := fst out in
  let processed_count := snd out in
  note_if_none username repo_data processed_count ;;
  ret repo_data.

(** Lines 99-109: the three handlers; each returns the empty list. *)
Definition fetch_failed (username : str) (github_token : option str) (e : exn)
    : list repo_info * list event :=
  match e with
  | RateLimitExceededException _ =>
      ([],
       [st_error (lit "GitHub API Rate Limit Exceeded. Please wait a while before trying again.")] ++
       (if negb (truthy_opt github_token)
        then [st_error (lit "Consider adding a GitHub Personal Access Token to significantly increase the rate limit.")]
        else []))
  | UnknownObjectException _ =>
      ([],
       [st_error (lit "GitHub user '" ++ username ++
                  lit "' not found. Please check the username.")])
  | _ =>
      ([],
       [st_error (lit "An unexpected error occurred while fetching GitHub repositories: " ++
                  exn_type_name e ++ lit " - " ++ exn_str e)])
  end.

Definition fetch_github_repos (w : world) (username : str)
    (github_token_from_input : option str) : list repo_info * list event :=
  let github_token := resolve_github_token w github_token_from_input in
  handle (fetch_body w username github_token)
         (fetch_failed username github_token).

(** *** [analyze_with_gemini] and [answer_with_gemini] *)

Definition model_name : str := lit "gemini-1.5-flash-latest".

(** The [except Exception as e] handler both functions share. *)
Definition gemini_failure (e : exn) : str * list event :=
  (lit "An error occurred during Gemini analysis: " ++ exn_str e,
   [st_error (lit "Error analyzing with Gemini: " ++ exn_type_name e ++
              lit " - " ++ exn_str e)] ++
   (if contains (lit "API key not valid") (exn_str e) then
      [st_error (lit "Invalid Gemini API Key. Please check the key in the sidebar.")]
    else if contains (lit "quota") (lower (exn_str e)) then
      [st_error (lit "Quota exceeded for Gemini API. Check your usage limits or try again later.")]
    else if contains (lit "blocked") (lower (exn_str e)) then
      [st_error (lit "Content was blocked by the Gemini API safety filters. Please review inputs.")]
    else [])).

(** The [try] body both functions share, up to the prompt. *)
Definition ask_gemini (w : world) (p : prompt) : str * list event :=
  handle
    (let api_key := session_state w !! "gemini_api_key"%string in
     if negb (truthy_opt api_key) then
       emit (st_error (lit "Gemini API key is missing. Please add it in the sidebar.")) ;;
       ret (lit "Error: Gemini API key is missing.")
     else
       emit (genai_configure (default [] api_key)) ;;
       emit (generate_content_call model_name p) ;;
       lift (generate_content w p))
    gemini_failure.

Definition analyze_with_gemini (w : world) (github_data : list repo_info)
    (resume_text job_description role company : str) : str * list event :=
  ask_gemini w (analysis_prompt resume_text github_data role company job_description).

Definition answer_with_gemini (w : world) (github_data : list repo_info)
    (resume_text question job_role Company_name job_description : str)
    : str * list event :=
  ask_gemini w (answer_prompt resume_text github_data job_role Company_name
                  job_description question).

(** *** [display_results] *)

(** The optional numbering of a heading, [(\d+\.\s+)?], as group [n]. *)
Definition numbering (n : nat) : regex :=
  Opt (Group n (Seq (Rep true 1 Digit) (Seq (Lit (lit ".")) (Rep true 1 Space)))).

(** The first branch of the look-ahead of the pattern,
    [\n\s*\*\*(\d+\.\s+)?.*?\*\*]. *)
Definition next_heading : regex :=
  Seq (Lit [nl])
 (Seq (Rep true 0 Space)
 (Seq (Lit (lit "**"))
 (Seq (numbering 3)
 (Seq (Rep false 0 Any)
      (Lit (lit "**")))))).

(** The pattern of [extract_section],
    [(?:^|\n)\s*\*\*(\d+\.\s+)?NAME\*\*(.*?)(?=\n\s*\*\*(\d+\.\s+)?.*?\*\*|\Z)],
    where [NAME] is [re.escape(section_name)], the title as literal
    text. *)
Definition pattern (section_name : str) : regex :=
  Seq (Alt Bol (Lit [nl]))
 (Seq (Rep true 0 Space)
 (Seq (Lit (lit "**"))
 (Seq (numbering 1)
 (Seq (Lit section_name)
 (Seq (Lit (lit "**"))
 (Seq (Group 2 (Rep false 0 Any))
      (Ahead (Alt next_heading Eos)))))))).

Definition extract_section (text section_name : str) : option str :=
  match search (pattern section_name) text with
  | Some m =>
      match group m 2 with
      | Some g =>
          let content := strip g in
          if negb (truthy content) || startswith content (lit "**")
          then None
          else Some content
      | None => None
      end
  | None => None
  end.

Definition sections_to_display : list (str * bool) :=
  [ (lit "Skills to Highlight", true);
    (lit "Projects to Showcase", true);
    (lit "Resume Objective", true);
    (lit "Interview Preparation Tips", true) ].

(** One turn of the [for] loop over [sections_to_display]: the expander
    it shows and whether the section counted as found. *)
Definition display_section (analysis_text : str) (entry : str * bool)
    : event * bool :=
  let '(section_title, expanded_default) := entry in
  let section_content := extract_section analysis_text section_title in
  if truthy_opt section_content then
    let c := default [] section_content in
    (st_expander section_title expanded_default
       ([st_markdown c] ++
        (if bool_decide (section_title = lit "Resume Objective") then
           [st_text_area (lit "Copy-paste ready objective:") c 100
              (lit "copy_" ++ replace " " "_" (lower section_title))]
         else [])),
     true)
  else
    (st_expander section_title expanded_default
       [st_warning (lit "Could not extract '" ++ section_title ++
                    lit "' section from the AI response. Check the raw response below for formatting issues.")],
     false).

Definition raw_response_fallback (analysis_text : str) : event :=
  st_expander (lit "Show Raw Gemini Response (Parsing Failed)") true
    [st_text_area (lit "Raw Response") analysis_text 300
       (lit "raw_response_fallback_display")].

Definition display_results (analysis_text : str) : list event :=
  [st_subheader (lit "Analysis Results")] ++
  if startswith analysis_text (lit "Error:")
     || contains (lit "An error occurred during Gemini analysis:") analysis_text
  then [st_error (lit "Analysis failed: " ++ analysis_text)]
  else
    let '(shown, sections_found_count) :=
      fold_left
        (fun '(shown, sections_found_count) entry =>
           let '(expander, found) := display_section analysis_text entry in
           (shown ++ [expander],
            if found then S sections_found_count else sections_found_count))
        sections_to_display ([], 0) in
    shown ++
    if (sections_found_count =? 0) && truthy analysis_text
       && negb (startswith analysis_text (lit "Error:"))
    then
      [st_warning (lit "Could not parse structured sections from the AI response. Displaying raw response below:");
       raw_response_fallback analysis_text]
    else if truthy analysis_text then
      [st_expander (lit "Show Raw Gemini Response") false
         [st_text_area (lit "Raw Response from AI") analysis_text 300
            (lit "raw_response_main_display")]]
    else [].

End App.

Import App.

(** ** What the parser is asked to do

    The words of the specification for [extract_section], to be compared
    with what the pattern does. *)

Module Spec.

Definition blank (w : str) : Prop :=
  Forall (fun c => Chars.isspace c = true) w.

Definition digits (w : str) : Prop :=
  Forall (fun c => Chars.isdigit c = true) w.

(** Equal up to the case of letters. *)
Definition same_nocase (a b : str) : Prop := lower a = lower b.

(** The optional number of a heading: nothing, or digits, a full stop
    and white space. *)
Definition is_numbering (num : str) : Prop :=
  num = [] \/
  exists ds ws, num = ds ++ lit "." ++ ws /\
    ds <> [] /\ digits ds /\ ws <> [] /\ blank ws.

(** A bolded, optionally numbered heading for a title. *)
Definition heading (section_name h : str) : Prop :=
  exists num ttl, h = lit "**" ++ num ++ ttl ++ lit "**" /\
    is_numbering num /\ same_nocase ttl section_name.

(** A heading stands at the start of the text or of a line, after
    optional white space. *)
Definition anchored (pre lead : str) : Prop :=
  (pre = [] /\ lead = []) \/ lead = [nl].

(** The text has a heading for the title, followed by [after]. *)
Definition heading_at (text section_name pre after : str) : Prop :=
  exists lead ws h, text = pre ++ lead ++ ws ++ h ++ after /\
    anchored pre lead /\ blank ws /\ heading section_name h.

Definition has_heading (text section_name : str) : Prop :=
  exists pre after, heading_at text section_name pre after.

(** The text goes on with a bolded heading on a new line. *)
Definition next_bold (s : str) : Prop :=
  exists ws mid tail,
    s = [nl] ++ ws ++ lit "**" ++ mid ++ lit "**" ++ tail /\ blank ws.

(** Where a section ends. *)
Definition section_end (s : str) : Prop := next_bold s \/ s = [].

(** [body] is the text from just after the first heading for the title
    up to the next bolded heading or the end of the text, whichever comes
    first. *)
Definition section_at (text section_name body : str) : Prop :=
  exists pre rest,
    heading_at text section_name pre (body ++ rest) /\
    (forall pre1 after1,
       heading_at text section_name pre1 after1 -> length pre <= length pre1) /\
    section_end rest /\
    forall b1 b2, body = b1 ++ b2 -> b2 <> [] -> ~ section_end (b2 ++ rest).

(** A body that is empty or starts with the bold marker is no section. *)
Definition keep (content : str) : option str :=
  if negb (truthy content) || startswith content (lit "**")
  then None else Some content.

(** What the repository collector is asked to return. *)

(** The README excerpt of a repository: the decoded text cut to 8000
    characters, empty when it cannot be fetched or decoded. *)
Definition excerpt (w : world) (repo : Repository) : str :=
  match get_readme repo with
  | inr content =>
      match b64decode w content with
      | inr readme_bytes => take 8000 (decode_utf8_ignore w readme_bytes)
      | inl _ => []
      end
  | inl _ => []
  end.

(** The text the inner [try] of the loop leaves in [readme_content]. *)
Definition readme_text (w : world) (repo : Repository) : str :=
  match get_readme repo with
  | inr content =>
      match b64decode w content with
      | inr readme_bytes => decode_utf8_ignore w readme_bytes
      | inl _ => []
      end
  | inl _ => []
  end.

Definition summarize (w : world) (repo : Repository) : repo_info :=
  {| info_name := name repo;
     info_description :=
       match description repo with
       | Some (c :: d) => c :: d
       | _ => lit "No description provided."
       end;
     info_readme := excerpt w repo |}.

(** The README of a repository cannot be fetched or decoded. *)
Definition readme_fails (w : world) (repo : Repository) : Prop :=
  match get_readme repo with
  | inr content =>
      match b64decode w content with inr _ => False | inl _ => True end
  | inl _ => True
  end.

(** The repositories a listing yields, in the order it yields them. *)
Fixpoint encountered (repos : PaginatedList) : list Repository :=
  match repos with
  | Yield repo more => repo :: encountered more
  | Done | Raise _ => []
  end.

(** A listing that yields the given repositories and ends. *)
Definition listing (repos : list Repository) : PaginatedList :=
  fold_right Yield Done repos.

Definition non_forked (repos : list Repository) : list Repository :=
  List.filter (fun repo => negb (fork repo)) repos.

(** The first source that is present. *)
Fixpoint first_present (sources : list (option str)) : option str :=
  match sources with
  | [] => None
  | Some t :: _ => Some t
  | None :: more => first_present more
  end.

(** The three sources of a token, in the order of their priority: the
    explicit argument when it is not empty, [GITHUB_TOKEN] of the secret
    store when the store holds it, [GITHUB_TOKEN] of the environment
    (as the call finds it) when it is set. *)
Definition token_sources (w : world) (github_token_from_input : option str)
    : list (option str) :=
  [ if truthy_opt github_token_from_input then github_token_from_input else None;
    match secrets w with
    | Some s => s !! "GITHUB_TOKEN"%string
    | None => None
    end;
    environ w !! "GITHUB_TOKEN"%string ].

(** How a token is used: the client is made with it, or without a
    credential when there is none or it is empty. *)
Definition as_credential (github_token : option str) : option str :=
  if truthy_opt github_token then github_token else None.

(** The credential of a call: what its client is made with. *)
Definition credential (w : world) (github_token_from_input : option str)
    : option str :=
  as_credential (resolve_github_token w github_token_from_input).

(** The call has a token. *)
Definition authenticated (w : world) (github_token_from_input : option str)
    : Prop :=
  exists token, credential w github_token_from_input = Some token.

(** No error message among the events. *)
Definition no_error (log : list event) : Prop :=
  forall msg, ~ In (st_error msg) log.

Definition titles : list str := map fst sections_to_display.

(** The expander shown for a section that was not found. *)
Definition missing_section (section_title : str) : event :=
  st_expander section_title true
    [st_warning (lit "Could not extract '" ++ section_title ++
                 lit "' section from the AI response. Check the raw response below for formatting issues.")].

End Spec.

Import Spec.

(** ** Concrete inputs *)

Module Examples.

(** The response of the example in the specification. *)
Definition example_response : str :=
  lit "**1. Skills to Highlight**" ++ [nl] ++ lit "Python" ++ [nl] ++
  lit "**2. Projects to Showcase**" ++ [nl] ++ lit "Proj A".

(** A heading directly followed by the next heading, and a heading
    followed by bold text on its own line. *)
Definition empty_section : str :=
  lit "**1. Skills to Highlight**" ++ [nl] ++
  lit "**2. Projects to Showcase**" ++ [nl] ++ lit "Proj A".

Definition bold_section : str :=
  lit "**Skills to Highlight** **Python".

(** A model answer that happens to start with [Error:]. *)
Definition error_like_response : str :=
  lit "Error: none of the projects matches." ++ [nl] ++
  lit "**1. Skills to Highlight**" ++ [nl] ++ lit "Python".

Definition plain_response : str := lit "I cannot help with that.".

Definition repo (forked : bool) (n : string) (d : option str) (r : exn + str)
    : Repository :=
  {| fork := forked; name := lit n; description := d; get_readme := r |}.

(** Three repositories of the user's own and two forks; one README is
    missing and one cannot be decoded. *)
Definition five_repos : list Repository :=
  [ repo false "alpha" (Some (lit "First")) (inr (lit "Alpha readme"));
    repo true "fork-one" None (inr (lit "Fork readme"));
    repo false "beta" None (inl (UnknownObjectException (lit "Not Found")));
    repo true "fork-two" (Some (lit "A fork")) (inl (UnknownObjectException (lit "Not Found")));
    repo false "gamma" (Some []) (inr (lit "!")) ].

(** GitHub with three users: one with [five_repos], one with no
    repository, one whose only repository is a fork. *)
Definition example_github (token : option str) : Github :=
  {| get_rate_limit := inr (57, 60);
     get_user := fun username =>
       if bool_decide (username = lit "octocat") then
         inr {| get_repos := fun _ _ => listing five_repos |}
       else if bool_decide (username = lit "newbie") then
         inr {| get_repos := fun _ _ => Done |}
       else inl (UnknownObjectException (lit "Not Found")) |}.

(** A Streamlit that takes the icons made of one code point from
    U+203C on. *)
Definition example_streamlit : Streamlit :=
  {| accepts_icon := fun i =>
       match i with [c] => (8252 <=? c)%N | _ => false end;
     invalid_icon_message := fun _ =>
       lit "The value is not a valid emoji. Shortcodes are not allowed, please use a single character instead." |}.

(** [b64decode] and [decode] are stand-ins here: the text [!] cannot
    be decoded and every other text decodes to itself. *)
Definition example_world (secret env key : option str) (answer : exn + str)
    : world :=
  {| github := example_github;
     secrets := Some (match secret with
                      | Some v => {[ "GITHUB_TOKEN"%string := v ]}
                      | None => ∅
                      end);
     environ := match env with
                | Some v => {[ "GITHUB_TOKEN"%string := v ]}
                | None => ∅
                end;
     session_state := match key with
                      | Some v => {[ "gemini_api_key"%string := v ]}
                      | None => ∅
                      end;
     b64decode := fun content =>
       if bool_decide (content = lit "!")
       then inl (Exception (lit "Error") (lit "Incorrect padding"))
       else inr content;
     decode_utf8_ignore := fun readme_bytes => readme_bytes;
     generate_content := fun _ => answer;
     streamlit := example_streamlit |}.

Definition quiet_world : world :=
  example_world None None None (inr []).

End Examples.

Import Examples.

(** ** Further notions used below *)

Module Layout.

(** The expander [display_results] shows for a title. *)
Definition section_expander (analysis_text section_title : str) : event :=
  fst (display_section analysis_text (section_title, true)).

(** The collapsed expander that offers the raw response. *)
Definition raw_response_offer (analysis_text : str) : event :=
  st_expander (lit "Show Raw Gemini Response") false
    [st_text_area (lit "Raw Response from AI") analysis_text 300
       (lit "raw_response_main_display")].

Definition parsing_failed_warning : event :=
  st_warning (lit "Could not parse structured sections from the AI response. Displaying raw response below:").

(** A listing that yields the given repositories and goes on as [more]. *)
Definition prepend (repos : list Repository) (more : PaginatedList)
    : PaginatedList :=
  fold_right Yield more repos.

Definition stopped_note : event :=
  st_sidebar_info (lit "Stopped fetching after processing " ++
                   of_nat max_repos_to_process ++
                   lit " non-forked repos to manage API usage.").

Definition no_token_warning : event :=
  st_sidebar_warning
    (lit "No GitHub token provided (checked input, secrets & env var). Using unauthenticated access (low rate limits: ~60/hr). May hit 'Rate Limit Exceeded'. Add a token for higher limits.").

Definition is_caption (ev : event) : Prop :=
  exists body, ev = st_sidebar_caption body.

(** The second message of the handler of a rate limit. *)
Definition token_advice : event :=
  st_error (lit "Consider adding a GitHub Personal Access Token to significantly increase the rate limit.").

(** What a call without a token shows after it has made its client. *)
Definition icon_failure (w : world) : event :=
  st_error (lit "An unexpected error occurred while fetching GitHub repositories: " ++
            lit "StreamlitAPIException" ++ lit " - " ++
            invalid_icon_message (streamlit w) no_token_icon).

End Layout.

Import Layout.

(** ** The page script of app.py

    Streamlit runs the script from top to bottom on every interaction.
    The parts below are the blocks of the script that do more than draw
    input widgets: the resume upload (lines 322-343), the preview of the
    sidebar (lines 280-306) and the two submit actions (lines 441-531 and
    537-628). Each takes what its block reads (the session, the inputs of
    the form) and returns the events it leaves, with the new session
    where it writes one. A session key that holds [None] and a key that is
    absent are not told apart by the script, and are the same here.
    Pauses ([time.sleep]) are left out. *)

Module Page.

(** The events of the script: those of the functions above, and the
    calls only the script makes. *)
Inductive page_event :=
| shown (ev : event)
| st_info (body : str)
| st_success (body : str)
| st_header (body : str)
| st_write (body : str)
| st_caption (body : str)
| st_spinner (text : str)
| st_progress (value : nat) (text : str)
| st_empty
| status_text (body : str)
| status_empty
| progress_empty
| print_line (line : str).

Definition with_session (w : world) (s : gmap string str) : world :=
  {| github := github w;
     secrets := secrets w;
     environ := environ w;
     session_state := s;
     b64decode := b64decode w;
     decode_utf8_ignore := decode_utf8_ignore w;
     generate_content := generate_content w;
     streamlit := streamlit w |}.

(** The world of a run of the script: the world of the functions,
    what [st.cache_data] holds when the run starts (the value it would
    return and the widgets it would replay), and GitHub as it answers a
    call that comes after another one of the same run: a second call is a
    new round of requests, and the service need not answer it as it
    answered the first. *)
Record page_world := {
  base : world;
  cache_data : str -> option str -> option (list repo_info * list event);
  github_retry : option str -> Github
}.

(** The world a second call of [fetch_github_repos] meets. *)
Definition retry_world (pw : page_world) : world :=
  {| github := github_retry pw;
     secrets := secrets (base pw);
     environ := environ (base pw);
     session_state := session_state (base pw);
     b64decode := b64decode (base pw);
     decode_utf8_ignore := decode_utf8_ignore (base pw);
     generate_content := generate_content (base pw);
     streamlit := streamlit (base pw) |}.

Definition truthy_list {A} (l : list A) : bool :=
  match l with [] => false | _ => true end.

(** *** [get_resume_content] *)

Definition get_resume_content (s : gmap string str) : str * str :=
  if truthy_opt (s !! "uploaded_resume_content"%string)
  then (default [] (s !! "uploaded_resume_content"%string), lit "upload")
  else ([], lit "none").

(** *** The resume upload, lines 322-343

    [uploaded_file] is the name and the bytes of the file in the
    uploader; [decode] is [bytes.decode("utf-8")]. *)
Definition process_upload (decode : str -> exn + str)
    (uploaded_file : option (str * str)) (s : gmap string str)
    : gmap string str * list page_event :=
  match uploaded_file with
  | Some (file_name, bytes_data) =>
      if negb (bool_decide (Some file_name = s !! "uploaded_resume_filename"%string))
      then
        match decode bytes_data with
        | inr content =>
            (<["uploaded_resume_filename"%string := file_name]>
               (<["uploaded_resume_content"%string := content]> s),
             [st_success (lit "Successfully uploaded and read '" ++ file_name ++
                          lit "'.")])
        | inl e =>
            (delete "uploaded_resume_filename"%string
               (delete "uploaded_resume_content"%string s),
             [shown (st_error (lit "Error reading uploaded file '" ++ file_name ++
                               lit "': " ++ exn_str e))])
        end
      else (s, [])
  | None =>
      match s !! "uploaded_resume_filename"%string with
      | Some _ =>
          (delete "uploaded_resume_filename"%string
             (delete "uploaded_resume_content"%string s), [])
      | None => (s, [])
      end
  end.

(** *** The cached fetch and its fallback *)

(** The cached function: what it returns and shows, and the world it
    leaves to the next call. A hit replays the entry and asks nothing; a
    miss runs [fetch_github_repos], after which GitHub has been asked
    once. *)
Definition cached_fetch_github_repos (pw : page_world) (username : str)
    (token : option str) : (list repo_info * list event) * world :=
  match cache_data pw username token with
  | Some entry => (entry, base pw)
  | None => (fetch_github_repos (base pw) username token, retry_world pw)
  end.

(** The cached call, and the plain call when the cached one gave
    nothing; [note] is what the block prints before the plain call. *)
Definition fetch_or_refetch (pw : page_world) (note : list page_event)
    (username : str) (token : option str) : list repo_info * list page_event :=
  let '((github_data_main, log), next) :=
    cached_fetch_github_repos pw username token in
  if negb (truthy_list github_data_main) then
    let '(github_data_main, log') := fetch_github_repos next username token in
    (github_data_main, map shown log ++ note ++ map shown log')
  else (github_data_main, map shown log).

(** *** The preview of the sidebar, lines 280-306 *)

Definition preview_item (repo_item : repo_info) : list page_event :=
  [shown (st_markdown (lit "**" ++ info_name repo_item ++ lit "** - " ++
                       info_description repo_item))] ++
  (if truthy (info_readme repo_item)
   then [st_caption (lit "Readme snippet: " ++ take 150 (info_readme repo_item) ++
                     lit "...")]
   else []) ++
  [shown (st_markdown (lit "---"))].

Definition sidebar_preview (pw : page_world) (show_github_sidebar : bool)
    : list page_event :=
  if show_github_sidebar then
    let current_gh_username :=
      session_state (base pw) !! "github_username"%string in
    let current_gh_token := session_state (base pw) !! "github_pat"%string in
    if truthy_opt current_gh_username then
      let username := default [] current_gh_username in
      let '(repos_preview, log) :=
        fetch_or_refetch pw [] username current_gh_token in
      [st_spinner (lit "Fetching GitHub data for '" ++ username ++ lit "' preview...")] ++
      log ++
      (if truthy_list repos_preview then
         [st_write (lit "Found " ++ of_nat (length repos_preview) ++
                    lit " relevant repositories:")] ++
         flat_map preview_item (take 5 repos_preview)
       else [])
    else [shown (st_warning (lit "Enter a GitHub username first to preview projects."))]
  else [].

(** *** The checks of the two submit actions *)

(** One [if not ...: st.error(...); valid_inputs = False]. *)
Definition require (present : bool) (message : str)
    (state : bool * list page_event) : bool * list page_event :=
  if present then state
  else (false, snd state ++ [shown (st_error message)]).

(** The check of the resume, with its three branches. *)
Definition require_resume (s : gmap string str)
    (state : bool * list page_event) : bool * list page_event :=
  let '(resume_text_main, resume_source) := get_resume_content s in
  if negb (truthy resume_text_main) && negb (bool_decide (resume_source = lit "error"))
  then (false, snd state ++
               [shown (st_error (lit "No resume found. Please upload a 'resume.txt' file."))])
  else if bool_decide (resume_source = lit "error") then (false, snd state)
  else if bool_decide (resume_source = lit "upload") then
    (fst state,
     snd state ++
     [st_info (lit "Using uploaded resume: '" ++
               default (lit "None") (s !! "uploaded_resume_filename"%string) ++
               lit "' for analysis.")])
  else state.

(** The warning about the user name; it leaves [valid_inputs] alone. *)
Definition warn_username (s : gmap string str)
    (state : bool * list page_event) : bool * list page_event :=
  if negb (truthy_opt (s !! "github_username"%string))
  then (fst state,
        snd state ++
        [shown (st_warning (lit "GitHub Username is not entered. Analysis will proceed without GitHub project data."))])
  else state.

(** Lines 544-574, the checks of "Analyze Job Match". *)
Definition submit_checks (s : gmap string str)
    (job_role_input company_name_input job_description_input : str)
    : bool * list page_event :=
  let state := (true, []) in
  let state := require (truthy_opt (s !! "gemini_api_key"%string))
                 (lit "Please enter your Gemini API Key in the sidebar.") state in
  let state := require_resume s state in
  let state := warn_username s state in
  let state := require (truthy job_role_input)
                 (lit "Please enter the Job Position/Title.") state in
  let state := require (truthy company_name_input)
                 (lit "Please enter the Company Name.") state in
  require (truthy job_description_input)
    (lit "Please enter a Job Description.") state.

(** Lines 446-478, the checks of "Answer on my Behalf". *)
Definition ask_checks (s : gmap string str)
    (job_role_input company_name_input job_description_input : str)
    : bool * list page_event :=
  let state := (true, []) in
  let state := require (truthy_opt (s !! "question"%string))
                 (lit "Please enter your Question.") state in
  let state := require (truthy_opt (s !! "gemini_api_key"%string))
                 (lit "Please enter your Gemini API Key in the sidebar.") state in
  let state := require_resume s state in
  let state := require (truthy job_role_input)
                 (lit "Please enter the Job Position/Title.") state in
  let state := require (truthy company_name_input)
                 (lit "Please enter the Company Name.") state in
  let state := require (truthy job_description_input)
                 (lit "Please enter a Job Description.") state in
  warn_username s state.

(** *** The steps both actions share *)

(** Step 1, lines 486-506 and 581-601. *)
Definition fetch_step (pw : page_world) (s : gmap string str)
    : list repo_info * list page_event :=
  let github_username_to_fetch := s !! "github_username"%string in
  if truthy_opt github_username_to_fetch then
    let username := default [] github_username_to_fetch in
    let '(github_data_main, log) :=
      fetch_or_refetch pw [print_line (lit "using non cached repo data")]
        username (s !! "github_pat"%string) in
    (github_data_main,
     [status_text (lit "Fetching GitHub repositories for '" ++ username ++ lit "'...");
      st_progress 25 (lit "Fetching GitHub repositories...")] ++ log)
  else
    ([],
     [status_text (lit "Skipping GitHub repository fetch (no username provided).");
      st_progress 25 (lit "Skipping GitHub repository fetch...")]).

(** Steps 2 and 3 up to the request, and step 4 up to the results. *)
Definition before_request : list page_event :=
  [status_text (lit "Preparing data for analysis...");
   st_progress 50 (lit "Preparing data for analysis...");
   status_text (lit "Analyzing with Gemini AI...");
   st_progress 75 (lit "Analyzing with Gemini AI...")].

Definition after_request : list page_event :=
  [status_text (lit "Analysis complete. Preparing results...");
   st_progress 100 (lit "Analysis complete!");
   status_empty;
   progress_empty].

(** *** "Analyze Job Match", lines 537-628 *)

Definition on_submit (pw : page_world)
    (job_role_input company_name_input job_description_input : str)
    : gmap string str * list page_event :=
  let s :=
    <["job_description"%string := job_description_input]>
      (<["company_name"%string := company_name_input]>
         (<["job_role"%string := job_role_input]> (session_state (base pw)))) in
  let '(valid_inputs, log) :=
    submit_checks s job_role_input company_name_input job_description_input in
  if valid_inputs then
    let resume_text_main := fst (get_resume_content s) in
    let '(github_data_main, fetch_log) := fetch_step pw s in
    let '(analysis_result_main, request_log) :=
      analyze_with_gemini (with_session (base pw) s) github_data_main
        resume_text_main job_description_input job_role_input
        company_name_input in
    (s,
     log ++
     [st_progress 0 (lit "Starting analysis..."); st_empty] ++
     fetch_log ++ before_request ++ map shown request_log ++ after_request ++
     map shown (display_results analysis_result_main))
  else
    (s,
     log ++
     [shown (st_warning (lit "Analysis cannot proceed due to missing inputs or errors. Please check the messages above."))]).

(** *** "Answer on my Behalf", lines 441-531 *)

Definition on_ask_question (pw : page_world)
    (question_input job_role_input company_name_input job_description_input : str)
    : gmap string str * list page_event :=
  let s :=
    <["job_description"%string := job_description_input]>
      (<["company_name"%string := company_name_input]>
         (<["job_role"%string := job_role_input]>
            (<["question"%string := question_input]> (session_state (base pw))))) in
  let '(valid_inputs, log) :=
    ask_checks s job_role_input company_name_input job_description_input in
  if valid_inputs then
    let resume_text_main := fst (get_resume_content s) in
    let '(github_data_main, fetch_log) := fetch_step pw s in
    let '(analysis_result_main, request_log) :=
      answer_with_gemini (with_session (base pw) s) github_data_main
        resume_text_main question_input job_role_input company_name_input
        job_description_input in
    (s,
     log ++
     [st_progress 0 (lit "Starting analysis..."); st_empty] ++
     fetch_log ++ before_request ++ map shown request_log ++ after_request ++
     [st_header question_input; shown (st_markdown analysis_result_main)])
  else (s, log).

(** An event that reaches GitHub or the generative service. *)
Definition is_request (pe : page_event) : Prop :=
  match pe with
  | shown (new_Github _) | shown (genai_configure _)
  | shown (generate_content_call _ _) => True
  | _ => False
  end.

Definition is_error (pe : page_event) : bool :=
  match pe with shown (st_error _) => true | _ => false end.

(** The five inputs "Analyze Job Match" cannot do without. *)
Definition required_inputs (s : gmap string str)
    (job_role_input company_name_input job_description_input : str)
    : list bool :=
  [ truthy_opt (s !! "gemini_api_key"%string);
    truthy_opt (s !! "uploaded_resume_content"%string);
    truthy job_role_input;
    truthy company_name_input;
    truthy job_description_input ].

(** The session is as the upload block leaves it: the name of the
    file is there exactly when its content is. *)
Definition upload_consistent (s : gmap string str) : Prop :=
  is_Some (s !! "uploaded_resume_filename"%string) <->
  is_Some (s !! "uploaded_resume_content"%string).

End Page.

Import Page.

(** ** The launcher, main.py

    [main] starts the Streamlit server as a child process, waits for its
    port and opens a window on it. Whether the port answers before the
    timeout of [wait_for_streamlit] is a matter of time and is left to
    the world, as are the answers of the operating system. A signal is
    taken where [main] spends its time, in the calls of the window
    toolkit, which then raise [SystemExit]. *)

Module Launcher.

(** A child process: its pid, and how [terminate], [wait(timeout=5)]
    and [kill] end; [cleanup] may run more than once, and the argument is
    the number of the run. *)
Record process := {
  pid : nat;
  terminate_result : nat -> exn + unit;
  wait_result : nat -> exn + unit;
  kill_result : nat -> exn + unit
}.

(** What a call of [main] may raise: an instance of [Exception], which
    [except Exception] catches, or [SystemExit] or [KeyboardInterrupt],
    which it does not. The handler the file installs for SIGINT (lines
    189-194) calls [sys.exit(0)]: the call the signal interrupts raises
    [SystemExit]. *)
Inductive raised :=
| an_exception (e : exn)
| SystemExit (code : nat)
| KeyboardInterrupt.

Record os := {
  os_name : str;                             (* [os.name] *)
  frozen : option str;                       (* [sys._MEIPASS] when frozen *)
  script_dir : str;          (* [os.path.dirname(os.path.abspath(__file__))] *)
  path_join : str -> str -> str;             (* [os.path.join] *)
  path_exists : str -> bool;                 (* [os.path.exists] *)
  executable : str;                          (* [sys.executable] *)
  Popen : list str -> exn + process;
  taskkill_result : nat -> nat -> exn + unit;   (* pid, number of the run *)
  find_free_port : raised + nat;
  port_answers : nat -> bool;     (* the port answers before the timeout *)
  create_window_result : raised + unit;
  webview_start_result : raised + unit   (* returns when the window closes *)
}.

Inductive os_event :=
| logger_info (message : str)
| logger_error (message : str)
| call_Popen (cmd : list str) (startupinfo : bool)
| call_taskkill (cmd : list str)
| call_terminate (p : nat)
| call_wait (p : nat)
| call_kill (p : nat)
| atexit_register (p : nat)
| create_window (title url : str) (width height : nat) (min_size : nat * nat)
    (confirm_close : bool)
| webview_start (gui : str).

Definition is_nt (o : os) : bool := bool_decide (os_name o = lit "nt").

Definition streamlit_cmd (o : os) (script_path : str) (port : nat) : list str :=
  [ executable o; lit "-m"; lit "streamlit"; lit "run"; script_path;
    lit "--server.port"; of_nat port;
    lit "--server.headless"; lit "true";
    lit "--server.enableCORS"; lit "false";
    lit "--server.enableXsrfProtection"; lit "false";
    lit "--browser.serverAddress"; lit "localhost";
    lit "--browser.gatherUsageStats"; lit "false";
    lit "--server.address"; lit "localhost" ].

Definition run_streamlit (o : os) (script_path : str) (port : nat)
    : option process * list os_event :=
  let start :=
    [logger_info (lit "Starting Streamlit server on port " ++ of_nat port ++ lit "...")] in
  let base_dir := match frozen o with Some meipass => meipass | None => script_dir o end in
  let script_path := path_join o base_dir script_path in
  if negb (path_exists o script_path) then
    (None, start ++ [logger_error (lit "Script not found: " ++ script_path)])
  else
    match Popen o (streamlit_cmd o script_path port) with
    | inr p =>
        (Some p, start ++ [call_Popen (streamlit_cmd o script_path port) (is_nt o)])
    | inl e =>
        (None,
         start ++ [call_Popen (streamlit_cmd o script_path port) (is_nt o);
                   logger_error (lit "Error starting Streamlit: " ++ exn_str e)])
    end.

Definition wait_for_streamlit (o : os) (port : nat) : bool * list os_event :=
  let waiting :=
    logger_info (lit "Waiting for Streamlit to be ready on port " ++ of_nat port ++
                 lit "...") in
  if port_answers o port
  then (true, [waiting; logger_info (lit "Streamlit server is ready!")])
  else (false, [waiting; logger_error (lit "Timeout waiting for Streamlit to start")]).

(** The [except] branch of [cleanup]. *)
Definition force_kill (p : process) (e : exn) : list os_event :=
  [logger_error (lit "Error terminating Streamlit process: " ++ exn_str e);
   call_kill (pid p)].

(** [cleanup], on its [run]-th run. *)
Definition cleanup (o : os) (run : nat) (streamlit_process : option process)
    : list os_event :=
  match streamlit_process with
  | Some p =>
      [logger_info (lit "Terminating Streamlit process...")] ++
      if is_nt o then
        [call_taskkill [lit "taskkill"; lit "/F"; lit "/T"; lit "/PID"; of_nat (pid p)]] ++
        match taskkill_result o (pid p) run with
        | inr _ => []
        | inl e => force_kill p e
        end
      else
        [call_terminate (pid p)] ++
        match terminate_result p run with
        | inr _ =>
            [call_wait (pid p)] ++
            match wait_result p run with
            | inr _ => []
            | inl e => force_kill p e
            end
        | inl e => force_kill p e
        end
  | None => []
  end.

Definition window (port : nat) : os_event :=
  create_window (lit "Resume Job Match Analyzer")
    (lit "http://localhost:" ++ of_nat port) 1200 800 (800, 600) true.

(** Lines 181-182: what [except Exception as e] does with what the
    [try] block raised, and what is still to be raised after it. *)
Definition except_Exception (outcome : raised + unit)
    : (raised + unit) * list os_event :=
  match outcome with
  | inl (an_exception e) =>
      (inr tt, [logger_error (lit "Error in main: " ++ exn_str e)])
  | _ => (outcome, [])
  end.

(** [main]. What [find_free_port] raises leaves it at once; what the
    window or the webview raise goes through the handler and the
    [finally] clause. *)
Definition main (o : os) : (raised + unit) * list os_event :=
  let starting := [logger_info (lit "Starting Resume Job Match Analyzer...")] in
  match find_free_port o with
  | inl r => (inl r, starting)
  | inr port =>
      let '(streamlit_process, log) := run_streamlit o (lit "app.py") port in
      let closed := [logger_info (lit "Application closed")] in
      match streamlit_process with
      | None =>
          (inr tt,
           starting ++ log ++ [logger_error (lit "Failed to start Streamlit")] ++
           cleanup o 0 None ++ closed)
      | Some p =>
          let '(ready, wait_log) := wait_for_streamlit o port in
          if negb ready then
            (inr tt,
             starting ++ log ++ [atexit_register (pid p)] ++ wait_log ++
             [logger_error (lit "Streamlit failed to start in time")] ++
             cleanup o 0 (Some p) ++ cleanup o 1 (Some p) ++ closed)
          else
            let gui := if is_nt o then lit "edgechromium" else lit "gtk" in
            let '(outcome, gui_log) :=
              match create_window_result o with
              | inl r => (inl r, [window port])
              | inr _ => (webview_start_result o, [window port; webview_start gui])
              end in
            let '(outcome, handled) := except_Exception outcome in
            (outcome,
             starting ++ log ++ [atexit_register (pid p)] ++ wait_log ++ gui_log ++
             handled ++ cleanup o 0 (Some p) ++ closed)
      end
  end.

(** [cleanup] met a failure on that run. *)
Definition cleanup_failed (o : os) (run : nat) (p : process) : Prop :=
  if is_nt o then exists e, taskkill_result o (pid p) run = inl e
  else (exists e, terminate_result p run = inl e) \/
       (exists e, wait_result p run = inl e).

Definition is_window (ev : os_event) : Prop :=
  match ev with create_window _ _ _ _ _ _ => True | _ => False end.


End Launcher.

(** ** More concrete inputs *)

Module MoreExamples.

(** A world whose only user has a listing that goes on as [more] after
    the given repositories. *)
Definition listing_world (repos : list Repository) (more : PaginatedList)
    : world :=
  {| github := fun _ =>
       {| get_rate_limit := inr (57, 60);
          get_user := fun _ =>
            inr {| get_repos := fun _ _ => prepend repos more |} |};
     secrets := None;
     environ := ∅;
     session_state := ∅;
     b64decode := fun content => inr content;
     decode_utf8_ignore := fun readme_bytes => readme_bytes;
     generate_content := fun _ => inr [];
     streamlit := example_streamlit |}.

Definition rate_limited : exn := RateLimitExceededException (lit "403").

(** A world in which GitHub knows no user. *)
Definition listing_world_unknown : world :=
  {| github := fun _ =>
       {| get_rate_limit := inr (57, 60);
          get_user := fun _ => inl (UnknownObjectException (lit "Not Found")) |};
     secrets := None;
     environ := ∅;
     session_state := ∅;
     b64decode := fun content => inr content;
     decode_utf8_ignore := fun readme_bytes => readme_bytes;
     generate_content := fun _ => inr [];
     streamlit := example_streamlit |}.

(** A world in which GitHub refuses every user lookup. *)
Definition rate_limited_world : world :=
  {| github := fun _ =>
       {| get_rate_limit := inr (0, 60);
          get_user := fun _ => inl rate_limited |};
     secrets := None;
     environ := ∅;
     session_state := ∅;
     b64decode := fun content => inr content;
     decode_utf8_ignore := fun readme_bytes => readme_bytes;
     generate_content := fun _ => inr [];
     streamlit := example_streamlit |}.

(** Fifty repositories of the user's own. *)
Definition fifty_repos : list Repository :=
  List.repeat (repo false "project" None (inr (lit "readme"))) 50.

(** A session with an API key, an uploaded resume and a user name, and
    a page whose model gives [answer]. *)
Definition ready_session (username : str) : gmap string str :=
  <["github_pat"%string := lit "token"]>
    (<["github_username"%string := username]>
       (<["uploaded_resume_filename"%string := lit "cv.txt"]>
          (<["uploaded_resume_content"%string := lit "Python, Rocq"]>
             (<["gemini_api_key"%string := lit "key"]> ∅)))).

Definition ready_page (username : str) (answer : exn + str) : page_world :=
  {| base := with_session (example_world None None None answer)
               (ready_session username);
     cache_data := fun _ _ => None;
     github_retry := example_github |}.

(** A page with nothing cached and no session. *)
Definition fresh_page (w : world) : page_world :=
  {| base := w; cache_data := fun _ _ => None; github_retry := github w |}.

(** A page on which a user unknown at the first call has been created
    by the time of the second. *)
Definition late_user_page : page_world :=
  {| base := listing_world_unknown;
     cache_data := fun _ _ => None;
     github_retry := github (listing_world five_repos Done) |}.

(** A child process whose [terminate] fails, and a Unix system on which
    the server starts and answers but the window cannot be made. *)
Definition stubborn_process : Launcher.process :=
  {| Launcher.pid := 4242;
     Launcher.terminate_result := fun _ => inl (Exception (lit "OSError") (lit "denied"));
     Launcher.wait_result := fun _ => inr tt;
     Launcher.kill_result := fun _ => inr tt |}.

Definition example_os : Launcher.os :=
  {| Launcher.os_name := lit "posix";
     Launcher.frozen := None;
     Launcher.script_dir := lit "/opt/app";
     Launcher.path_join := fun a b => a ++ lit "/" ++ b;
     Launcher.path_exists := fun _ => true;
     Launcher.executable := lit "/usr/bin/python3";
     Launcher.Popen := fun _ => inr stubborn_process;
     Launcher.taskkill_result := fun _ _ => inr tt;
     Launcher.find_free_port := inr 8501;
     Launcher.port_answers := fun _ => true;
     Launcher.create_window_result :=
       inl (Launcher.an_exception (Exception (lit "WebViewException") (lit "no display")));
     Launcher.webview_start_result := inr tt |}.

(** The same system with a server that never answers. *)
Definition slow_os : Launcher.os :=
  {| Launcher.os_name := lit "posix";
     Launcher.frozen := None;
     Launcher.script_dir := lit "/opt/app";
     Launcher.path_join := fun a b => a ++ lit "/" ++ b;
     Launcher.path_exists := fun _ => true;
     Launcher.executable := lit "/usr/bin/python3";
     Launcher.Popen := fun _ => inr stubborn_process;
     Launcher.taskkill_result := fun _ _ => inr tt;
     Launcher.find_free_port := inr 8501;
     Launcher.port_answers := fun _ => false;
     Launcher.create_window_result := inr tt;
     Launcher.webview_start_result := inr tt |}.


End MoreExamples.

Import MoreExamples.

(** ** Facts about characters and text *)

Lemma lower_star c : Chars.lower c = "*"%char -> c = "*"%char.
Proof.
  destruct c as [[] [] [] [] [] [] [] []]; vm_compute; congruence.
Qed.

Lemma lower_nl c : Chars.lower c = nl -> c = nl.
Proof.
  destruct c as [[] [] [] [] [] [] [] []]; vm_compute; congruence.
Qed.

Lemma lower_dot c : Chars.lower c = "."%char -> c = "."%char.
Proof.
  destruct c as [[] [] [] [] [] [] [] []]; vm_compute; congruence.
Qed.

Lemma same_nocase_dot w : same_nocase w (lit ".") -> w = lit ".".
Proof.
  unfold same_nocase, lower. intros H.
  destruct w as [|a [|b w]]; try discriminate H.
  cbn in H. injection H as Ha.
  apply lower_dot in Ha. subst. reflexivity.
Qed.

Lemma same_nocase_stars w : same_nocase w (lit "**") -> w = lit "**".
Proof.
  unfold same_nocase, lower. intros H.
  destruct w as [|a [|b [|c w]]]; try discriminate H.
  cbn in H. injection H as Ha Hb.
  apply lower_star in Ha. apply lower_star in Hb. subst. reflexivity.
Qed.

Lemma same_nocase_nl w : same_nocase w [nl] -> w = [nl].
Proof.
  unfold same_nocase, lower. intros H.
  destruct w as [|a [|b w]]; try discriminate H.
  cbn in H. injection H as Ha.
  apply lower_nl in Ha. subst. reflexivity.
Qed.

(** ** Facts about the matcher *)

Section Matcher.

Import Re.

Lemma or_else_some a b r :
  or_else a b = Some r -> a = Some r \/ (a = None /\ b = Some r).
Proof. destruct a; cbn; intros; [left; congruence | right; auto]. Qed.

Lemma or_else_none a b : or_else a b = None -> a = None /\ b = None.
Proof. destruct a; cbn; intros; [discriminate | auto]. Qed.

Lemma lit_prefix_true l s :
  lit_prefix l s = true ->
  exists w s', s = w ++ s' /\ same_nocase w l.
Proof.
  revert s. induction l as [|a l IH]; intros s H.
  - exists [], s. split; reflexivity.
  - destruct s as [|c s]; [discriminate|]. cbn in H.
    apply andb_true_iff in H as [Hc Hl].
    apply bool_decide_eq_true in Hc.
    destruct (IH _ Hl) as (w & s' & -> & Hw).
    exists (c :: w), s'. split; [reflexivity|].
    unfold same_nocase, lower in *. cbn. congruence.
Qed.

Lemma lit_prefix_app w l s' : same_nocase w l -> lit_prefix l (w ++ s') = true.
Proof.
  revert w. induction l as [|a l IH]; intros w H; [reflexivity|].
  unfold same_nocase, lower in H.
  destruct w as [|c w]; [discriminate|]. cbn in H. injection H as Hc Hw.
  cbn. apply andb_true_iff. split; [|apply IH, Hw].
  apply bool_decide_eq_true. exact Hc.
Qed.

Lemma same_nocase_length w l : same_nocase w l -> length w = length l.
Proof.
  unfold same_nocase, lower. intros H.
  apply (f_equal length) in H. rewrite !length_map in H. exact H.
Qed.

(** Literal text: what a success and a failure of the rest of the
    pattern mean. *)
Lemma run_lit_some l k p s g r :
  run (Lit l) k (State p s g) = Some r ->
  exists w s', s = w ++ s' /\ same_nocase w l /\
    k (State (p + length w) s' g) = Some r.
Proof.
  cbn. destruct (lit_prefix l s) eqn:E; [|discriminate].
  destruct (lit_prefix_true _ _ E) as (w & s' & -> & Hw). intros H.
  exists w, s'. repeat split; auto.
  unfold advance in H. cbn in H.
  rewrite <- (same_nocase_length _ _ Hw), drop_app_length in H. exact H.
Qed.

Lemma run_lit_none l k p g w s' :
  run (Lit l) k (State p (w ++ s') g) = None ->
  same_nocase w l ->
  k (State (p + length w) s' g) = None.
Proof.
  cbn. intros H Hw. rewrite (lit_prefix_app _ _ _ Hw) in H.
  unfold advance in H. cbn in H.
  rewrite <- (same_nocase_length _ _ Hw), drop_app_length in H. exact H.
Qed.

(** Greedy repetition. *)
Lemma rep_greedy_some cl k g r s : forall lo p,
  rep_greedy cl lo k p s g = Some r ->
  exists w s', s = w ++ s' /\ all_in cl w /\ lo <= length w /\
    k (State (p + length w) s' g) = Some r.
Proof.
  induction s as [|c s IH]; intros lo p H; cbn in H.
  - destruct lo; [|discriminate]. exists [], []. cbn.
    rewrite Nat.add_0_r. repeat split; auto. constructor.
  - assert (Hstop : match lo with 0 => k (State p (c :: s) g) | S _ => None end = Some r ->
              exists w s', c :: s = w ++ s' /\ all_in cl w /\ lo <= length w /\
                k (State (p + length w) s' g) = Some r).
    { destruct lo; [|discriminate]. intros Hk. exists [], (c :: s). cbn.
      rewrite Nat.add_0_r. repeat split; auto. constructor. }
    destruct (in_class cl c) eqn:Ec; [|auto].
    apply or_else_some in H as [H | [_ H]]; [|auto].
    destruct (IH _ _ H) as (w & s' & -> & Hall & Hlo & Hk).
    exists (c :: w), s'. cbn. repeat split.
    + constructor; assumption.
    + lia.
    + rewrite Nat.add_succ_r. exact Hk.
Qed.

Lemma rep_greedy_none cl k g s : forall lo p w s',
  rep_greedy cl lo k p s g = None ->
  s = w ++ s' -> all_in cl w -> lo <= length w ->
  k (State (p + length w) s' g) = None.
Proof.
  induction s as [|c s IH]; intros lo p w s' H Hs Hall Hlo; cbn in H.
  - symmetry in Hs. apply app_eq_nil in Hs as [-> ->]. cbn in *.
    rewrite Nat.add_0_r. destruct lo; [exact H | lia].
  - destruct w as [|a w]; cbn in *.
    + subst s'. rewrite Nat.add_0_r. destruct lo; [|lia].
      destruct (in_class cl c); [|exact H].
      apply or_else_none in H as [_ H]. exact H.
    + injection Hs as -> ->. inversion Hall as [|? ? Ha Hw]; subst.
      rewrite Ha in H. apply or_else_none in H as [H _].
      rewrite Nat.add_succ_r. apply (IH (pred lo) (S p) w s' H); auto. lia.
Qed.

(** Lazy repetition: the shortest run after which the rest of the
    pattern matches. *)
Lemma rep_lazy_some cl k g r s : forall lo p,
  rep_lazy cl lo k p s g = Some r ->
  exists w s', s = w ++ s' /\ all_in cl w /\ lo <= length w /\
    k (State (p + length w) s' g) = Some r /\
    forall w1 w2, w = w1 ++ w2 -> w2 <> [] -> lo <= length w1 ->
      k (State (p + length w1) (w2 ++ s') g) = None.
Proof.
  induction s as [|c s IH]; intros lo p H; cbn in H.
  - destruct lo; cbn in H; [|discriminate].
    apply or_else_some in H as [H | [_ H]]; [|discriminate].
    exists [], []. cbn. rewrite Nat.add_0_r. repeat split; auto.
    + constructor.
    + intros w1 w2 Hw. symmetry in Hw. apply app_eq_nil in Hw as [_ ->]. congruence.
  - apply or_else_some in H as [H | [Hnow H]].
    + destruct lo; [|discriminate]. exists [], (c :: s). cbn.
      rewrite Nat.add_0_r. repeat split; auto.
      * constructor.
      * intros w1 w2 Hw. symmetry in Hw. apply app_eq_nil in Hw as [_ ->]. congruence.
    + destruct (in_class cl c) eqn:Ec; [|discriminate].
      destruct (IH _ _ H) as (w & s' & -> & Hall & Hlo & Hk & Hmin).
      exists (c :: w), s'. cbn. repeat split.
      * constructor; assumption.
      * lia.
      * rewrite Nat.add_succ_r. exact Hk.
      * intros w1 w2 Hw Hne Hl1. destruct w1 as [|a w1]; cbn in *.
        -- subst w2. rewrite Nat.add_0_r. destruct lo; [exact Hnow | lia].
        -- injection Hw as <- ->. rewrite Nat.add_succ_r.
           apply Hmin; auto. lia.
Qed.

Lemma rep_lazy_none cl k g s : forall lo p w s',
  rep_lazy cl lo k p s g = None ->
  s = w ++ s' -> all_in cl w -> lo <= length w ->
  k (State (p + length w) s' g) = None.
Proof.
  induction s as [|c s IH]; intros lo p w s' H Hs Hall Hlo; cbn in H.
  - symmetry in Hs. apply app_eq_nil in Hs as [-> ->]. cbn in *.
    rewrite Nat.add_0_r. apply or_else_none in H as [H _].
    destruct lo; [exact H | lia].
  - apply or_else_none in H as [Hnow H].
    destruct w as [|a w]; cbn in *.
    + subst s'. rewrite Nat.add_0_r. destruct lo; [exact Hnow | lia].
    + injection Hs as -> ->. inversion Hall as [|? ? Ha Hw]; subst.
      rewrite Ha in H. rewrite Nat.add_succ_r.
      apply (IH (pred lo) (S p) w s' H); auto. lia.
Qed.

(** The equations of [run] on the compound patterns. *)
Lemma run_seq r1 r2 k st : run (Seq r1 r2) k st = run r1 (run r2 k) st.
Proof. reflexivity. Qed.

Lemma run_alt r1 r2 k st :
  run (Alt r1 r2) k st = or_else (run r1 k st) (run r2 k st).
Proof. reflexivity. Qed.

Lemma run_opt r1 k st : run (Opt r1) k st = or_else (run r1 k st) (k st).
Proof. reflexivity. Qed.

Lemma run_group n r1 k st :
  run (Group n r1) k st =
  run r1 (fun st' => k (State (pos st') (rest st')
                          (<[n := (pos st, pos st')]> (groups st')))) st.
Proof. reflexivity. Qed.

Lemma run_ahead r1 k st :
  run (Ahead r1) k st =
  match run r1 Some st with
  | Some st' => k (State (pos st) (rest st) (groups st'))
  | None => None
  end.
Proof. reflexivity. Qed.

Lemma run_greedy_some cl lo k p s g r :
  run (Rep true lo cl) k (State p s g) = Some r ->
  exists w s', s = w ++ s' /\ all_in cl w /\ lo <= length w /\
    k (State (p + length w) s' g) = Some r.
Proof. apply rep_greedy_some. Qed.

Lemma run_greedy_none cl lo k p g w s' :
  run (Rep true lo cl) k (State p (w ++ s') g) = None ->
  all_in cl w -> lo <= length w ->
  k (State (p + length w) s' g) = None.
Proof. intros H. now apply (rep_greedy_none _ _ _ _ _ _ w s' H). Qed.

Lemma run_lazy_some cl lo k p s g r :
  run (Rep false lo cl) k (State p s g) = Some r ->
  exists w s', s = w ++ s' /\ all_in cl w /\ lo <= length w /\
    k (State (p + length w) s' g) = Some r /\
    forall w1 w2, w = w1 ++ w2 -> w2 <> [] -> lo <= length w1 ->
      k (State (p + length w1) (w2 ++ s') g) = None.
Proof. apply rep_lazy_some. Qed.

Lemma run_lazy_none cl lo k p g w s' :
  run (Rep false lo cl) k (State p (w ++ s') g) = None ->
  all_in cl w -> lo <= length w ->
  k (State (p + length w) s' g) = None.
Proof. intros H. now apply (rep_lazy_none _ _ _ _ _ _ w s' H). Qed.

(** The optional numbering. *)
Lemma numbering_some n k p s g r :
  run (numbering n) k (State p s g) = Some r ->
  exists num s' g', s = num ++ s' /\ is_numbering num /\
    (forall i, i <> n -> g' !! i = g !! i) /\
    k (State (p + length num) s' g') = Some r.
Proof.
  unfold numbering. rewrite run_opt, run_group, run_seq. intros H.
  apply or_else_some in H as [H | [_ H]].
  - apply run_greedy_some in H as (ds & s1 & -> & Hds & Hlen & H).
    rewrite run_seq in H.
    apply run_lit_some in H as (w & s2 & -> & Hw & H).
    apply same_nocase_dot in Hw. subst w.
    apply run_greedy_some in H as (ws & s3 & -> & Hws & Hlen' & H).
    cbn [pos rest groups] in H.
    exists (ds ++ lit "." ++ ws), s3, (<[n := (p, p + length ds + length (lit ".") + length ws)]> g).
    repeat split.
    + rewrite <- !app_assoc. reflexivity.
    + right. exists ds, ws. repeat split; auto.
      * destruct ds; [cbn in Hlen; lia | discriminate].
      * destruct ws; [cbn in Hlen'; lia | discriminate].
    + intros i Hi. apply lookup_insert_ne. congruence.
    + rewrite !length_app, !Nat.add_assoc. exact H.
  - exists [], s, g. cbn. rewrite Nat.add_0_r. repeat split; auto. left. reflexivity.
Qed.

Lemma numbering_none n k p g num s' :
  run (numbering n) k (State p (num ++ s') g) = None ->
  is_numbering num ->
  exists g', k (State (p + length num) s' g') = None.
Proof.
  unfold numbering. rewrite run_opt, run_group, run_seq. intros H Hnum.
  apply or_else_none in H as [H1 H2].
  destruct Hnum as [-> | (ds & ws & -> & Hd0 & Hds & Hw0 & Hws)].
  - exists g. cbn in *. rewrite Nat.add_0_r. exact H2.
  - exists (<[n := (p, p + length ds + length (lit ".") + length ws)]> g).
    rewrite <- !app_assoc in H1.
    apply run_greedy_none in H1; [|exact Hds|destruct ds; [congruence | cbn; lia]].
    rewrite run_seq in H1.
    apply run_lit_none in H1; [|reflexivity].
    apply run_greedy_none in H1; [|exact Hws|destruct ws; [congruence | cbn; lia]].
    cbn [pos rest groups] in H1.
    rewrite !length_app, !Nat.add_assoc. exact H1.
Qed.

(** The look-ahead. *)
Lemma next_heading_some k p s g r :
  run next_heading k (State p s g) = Some r ->
  next_bold s /\
  exists p' s' g', (forall i, i <> 3 -> g' !! i = g !! i) /\
    k (State p' s' g') = Some r.
Proof.
  unfold next_heading. rewrite run_seq. intros H.
  apply run_lit_some in H as (w & s1 & -> & Hw & H).
  apply same_nocase_nl in Hw. subst w. rewrite run_seq in H.
  apply run_greedy_some in H as (ws & s2 & -> & Hws & _ & H).
  rewrite run_seq in H.
  apply run_lit_some in H as (w & s3 & -> & Hw & H).
  apply same_nocase_stars in Hw. subst w. rewrite run_seq in H.
  apply numbering_some in H as (num & s4 & g' & -> & Hnum & Hg & H).
  rewrite run_seq in H.
  apply run_lazy_some in H as (mid & s5 & -> & _ & _ & H & _).
  apply run_lit_some in H as (w & s6 & -> & Hw & H).
  apply same_nocase_stars in Hw. subst w.
  split.
  - exists ws, (num ++ mid), s6. split; [|exact Hws].
    rewrite <- !app_assoc. reflexivity.
  - eauto.
Qed.

Lemma next_heading_none p s g :
  next_bold s -> run next_heading Some (State p s g) <> None.
Proof.
  intros (ws & mid & tail & -> & Hws) H.
  unfold next_heading in H. rewrite run_seq in H.
  apply run_lit_none in H; [|reflexivity]. rewrite run_seq in H.
  apply run_greedy_none in H; [|exact Hws|lia]. rewrite run_seq in H.
  apply run_lit_none in H; [|reflexivity]. rewrite run_seq in H.
  apply (numbering_none _ _ _ _ []) in H as [g' H]; [|left; reflexivity].
  rewrite run_seq in H.
  apply run_lazy_none in H; [|apply Forall_forall; reflexivity|lia].
  apply run_lit_none in H; [|reflexivity].
  discriminate H.
Qed.

Lemma ahead_some p s g r :
  run (Alt next_heading Eos) Some (State p s g) = Some r ->
  section_end s /\ forall i, i <> 3 -> groups r !! i = g !! i.
Proof.
  rewrite run_alt. intros H. apply or_else_some in H as [H | [_ H]].
  - apply next_heading_some in H as (Hb & p' & s' & g' & Hg & H).
    injection H as <-. split; [left; exact Hb | exact Hg].
  - cbn in H. destruct s; [|discriminate]. injection H as <-.
    split; [right; reflexivity | reflexivity].
Qed.

Lemma ahead_none p s g :
  run (Alt next_heading Eos) Some (State p s g) = None -> ~ section_end s.
Proof.
  rewrite run_alt. intros H. apply or_else_none in H as [H1 H2].
  intros [Hb | ->].
  - exact (next_heading_none _ _ _ Hb H1).
  - discriminate H2.
Qed.

(** One attempt of the whole pattern at a position. *)
Lemma pattern_some section_name p s r :
  run (pattern section_name) Some (State p s ∅) = Some r ->
  exists lead ws h body rest',
    s = lead ++ ws ++ h ++ body ++ rest' /\
    ((p = 0 /\ lead = []) \/ lead = [nl]) /\ blank ws /\
    heading section_name h /\ section_end rest' /\
    (forall b1 b2, body = b1 ++ b2 -> b2 <> [] -> ~ section_end (b2 ++ rest')) /\
    groups r !! 2 =
      Some (p + length (lead ++ ws ++ h), p + length (lead ++ ws ++ h) + length body).
Proof.
  unfold pattern. rewrite run_seq, run_alt. intros H.
  assert (exists lead s0, s = lead ++ s0 /\ ((p = 0 /\ lead = []) \/ lead = [nl]) /\
            run (Seq (Rep true 0 Space)
               (Seq (Lit (lit "**")) (Seq (numbering 1) (Seq (Lit section_name)
               (Seq (Lit (lit "**")) (Seq (Group 2 (Rep false 0 Any))
               (Ahead (Alt next_heading Eos)))))))) Some
              (State (p + length lead) s0 ∅) = Some r) as (lead & s0 & -> & Hlead & H0).
  { apply or_else_some in H as [H | [_ H]].
    - cbn [run pos] in H. destruct (p =? 0) eqn:Ep; [|discriminate].
      apply Nat.eqb_eq in Ep. exists [], s. cbn. rewrite Nat.add_0_r. auto.
    - apply run_lit_some in H as (w & s1 & -> & Hw & H).
      apply same_nocase_nl in Hw. subst w. exists [nl], s1. auto. }
  clear H. rename H0 into H. rewrite run_seq in H.
  apply run_greedy_some in H as (ws & s1 & -> & Hws & _ & H).
  rewrite run_seq in H.
  apply run_lit_some in H as (w & s2 & -> & Hw & H).
  apply same_nocase_stars in Hw. subst w. rewrite run_seq in H.
  apply numbering_some in H as (num & s3 & g1 & -> & Hnum & Hg1 & H).
  rewrite run_seq in H.
  apply run_lit_some in H as (ttl & s4 & -> & Httl & H).
  rewrite run_seq in H.
  apply run_lit_some in H as (w & s5 & -> & Hw & H).
  apply same_nocase_stars in Hw. subst w.
  rewrite run_seq, run_group in H.
  apply run_lazy_some in H as (body & s6 & -> & _ & _ & H & Hmin).
  cbn [pos rest groups] in H. rewrite run_ahead in H.
  destruct (run (Alt next_heading Eos) Some _) as [st'|] eqn:Ea; [|discriminate].
  cbn [pos rest groups] in H. injection H as <-.
  apply ahead_some in Ea as [Hend Hg].
  exists lead, ws, (lit "**" ++ num ++ ttl ++ lit "**"), body, s6.
  repeat split.
  - rewrite <- !app_assoc. reflexivity.
  - exact Hlead.
  - exact Hws.
  - exists num, ttl. auto.
  - exact Hend.
  - intros b1 b2 Hb Hne. specialize (Hmin b1 b2 Hb Hne (Nat.le_0_l _)).
    cbn [pos rest groups] in Hmin. rewrite run_ahead in Hmin.
    destruct (run (Alt next_heading Eos) Some _) as [st''|] eqn:Ea; [discriminate|].
    apply ahead_none in Ea. exact Ea.
  - cbn [groups]. rewrite Hg by lia. rewrite lookup_insert_eq.
    rewrite !length_app. f_equal. f_equal; lia.
Qed.

Lemma pattern_none section_name p g lead ws h after :
  ((p = 0 /\ lead = []) \/ lead = [nl]) -> blank ws -> heading section_name h ->
  run (pattern section_name) Some (State p (lead ++ ws ++ h ++ after) g) <> None.
Proof.
  intros Hlead Hws (num & ttl & -> & Hnum & Httl) H.
  unfold pattern in H. rewrite run_seq, run_alt in H.
  apply or_else_none in H as [Hbol Hnl].
  assert (run (Seq (Rep true 0 Space)
               (Seq (Lit (lit "**")) (Seq (numbering 1) (Seq (Lit section_name)
               (Seq (Lit (lit "**")) (Seq (Group 2 (Rep false 0 Any))
               (Ahead (Alt next_heading Eos)))))))) Some
              (State (p + length lead)
                 (ws ++ lit "**" ++ num ++ ttl ++ lit "**" ++ after) g) = None) as H.
  { destruct Hlead as [[-> ->] | ->].
    - cbn in Hbol. rewrite <- !app_assoc in Hbol. exact Hbol.
    - apply run_lit_none in Hnl; [|reflexivity].
      rewrite <- !app_assoc in Hnl. exact Hnl. }
  clear Hbol Hnl. rewrite run_seq in H.
  apply run_greedy_none in H; [|exact Hws|lia]. rewrite run_seq in H.
  apply run_lit_none in H; [|reflexivity]. rewrite run_seq in H.
  apply numbering_none in H as [g' H]; [|exact Hnum]. rewrite run_seq in H.
  apply run_lit_none in H; [|exact Httl]. rewrite run_seq in H.
  apply run_lit_none in H; [|reflexivity]. rewrite run_seq, run_group in H.
  rewrite <- (app_nil_r after) in H.
  apply run_lazy_none in H; [|apply Forall_forall; reflexivity|lia].
  cbn [pos rest groups] in H. rewrite run_ahead in H.
  destruct (run (Alt next_heading Eos) Some _) as [st'|] eqn:Ea; [discriminate|].
  apply ahead_none in Ea. apply Ea. right. reflexivity.
Qed.

(** Trying the start positions in turn. *)
Lemma search_from_some r s : forall p st,
  search_from r p s = Some st ->
  exists pre s', s = pre ++ s' /\
    run r Some (State (p + length pre) s' ∅) = Some st /\
    forall pre1 pre2, pre = pre1 ++ pre2 -> pre2 <> [] ->
      run r Some (State (p + length pre1) (pre2 ++ s') ∅) = None.
Proof.
  assert (Hnil : forall (p : nat) (s' pre1 pre2 : str),
            [] = pre1 ++ pre2 -> pre2 <> [] ->
            run r Some (State (p + length pre1) (pre2 ++ s') ∅) = None).
  { intros p s' pre1 pre2 H Hne. symmetry in H.
    apply app_eq_nil in H as [_ ->]. congruence. }
  induction s as [|c s IH]; intros p st H; cbn [search_from] in H;
    apply or_else_some in H as [H | [Hhere H]].
  - exists [], []. cbn. rewrite Nat.add_0_r. auto.
  - discriminate.
  - exists [], (c :: s). cbn [length app]. rewrite Nat.add_0_r. auto.
  - destruct (IH _ _ H) as (pre & s' & -> & H' & Hmin).
    exists (c :: pre), s'. cbn [length app]. rewrite Nat.add_succ_r.
    repeat split; auto.
    intros pre1 pre2 Hpre Hne. destruct pre1 as [|a pre1]; cbn in Hpre |- *.
    + subst pre2. rewrite Nat.add_0_r. exact Hhere.
    + injection Hpre as <- ->. rewrite Nat.add_succ_r. apply Hmin; auto.
Qed.

Lemma search_from_none r s : forall p pre s',
  search_from r p s = None -> s = pre ++ s' ->
  run r Some (State (p + length pre) s' ∅) = None.
Proof.
  induction s as [|c s IH]; intros p pre s' H Hs; cbn [search_from] in H;
    apply or_else_none in H as [H0 H].
  - symmetry in Hs. apply app_eq_nil in Hs as [-> ->]. cbn.
    rewrite Nat.add_0_r. exact H0.
  - destruct pre as [|a pre]; cbn in *.
    + subst s'. rewrite Nat.add_0_r. exact H0.
    + injection Hs as -> ->. rewrite Nat.add_succ_r. apply (IH _ _ _ H eq_refl).
Qed.

End Matcher.

(** ** [extract_section] *)

Lemma slice_middle (a b c : str) :
  slice (length a) (length a + length b) (a ++ b ++ c) = b.
Proof.
  unfold slice. rewrite drop_app_length.
  replace (length a + length b - length a) with (length b) by lia.
  apply take_app_length.
Qed.

Lemma lstrip_suffix s : exists a, s = a ++ lstrip s.
Proof.
  induction s as [|c s [a IH]]; [exists []; reflexivity|]. cbn.
  destruct (Chars.isspace c).
  - exists (c :: a). cbn. congruence.
  - exists []. reflexivity.
Qed.

Lemma strip_infix s : exists a b, s = a ++ strip s ++ b.
Proof.
  unfold strip, rstrip. destruct (lstrip_suffix s) as [a Ha].
  destruct (lstrip_suffix (rev (lstrip s))) as [b Hb].
  exists a, (rev b). rewrite <- rev_app_distr, <- Hb, rev_involutive. exact Ha.
Qed.

(** A match of the pattern is a section of the text, and group 2 is its
    body. *)
Lemma search_section text section_name m :
  Re.search (pattern section_name) text = Some m ->
  Re.m_string m = text /\
  exists body, Re.group m 2 = Some body /\ section_at text section_name body.
Proof.
  unfold Re.search.
  destruct (Re.search_from _ 0 text) as [st|] eqn:E; [|discriminate].
  intros [= <-]. split; [reflexivity|].
  apply search_from_some in E as (pre & s' & -> & E & Hfirst).
  apply pattern_some in E
    as (lead & ws & h & body & rest' & -> & Hlead & Hws & Hh & Hend & Hmin & Hg).
  exists body. split.
  - unfold Re.group. cbn [Re.m_groups Re.m_string]. rewrite Hg.
    f_equal. cbn [Nat.add].
    rewrite <- length_app.
    replace (pre ++ lead ++ ws ++ h ++ body ++ rest')
      with ((pre ++ lead ++ ws ++ h) ++ body ++ rest')
      by (rewrite <- !app_assoc; reflexivity).
    apply slice_middle.
  - exists pre, rest'. repeat split; auto.
    + exists lead, ws, h. repeat split; auto.
      destruct Hlead as [[Hp ->] | ->]; [left | right; reflexivity].
      split; [|reflexivity]. destruct pre; [reflexivity | discriminate Hp].
    + intros pre1 after1 (lead1 & ws1 & h1 & Htext & Hanch1 & Hws1 & Hh1).
      destruct (Nat.le_gt_cases (length pre) (length pre1)) as [|Hlt]; [assumption|].
      exfalso. symmetry in Htext.
      apply app_eq_app in Htext as [l [[-> Hl] | [-> Hl]]].
      * rewrite length_app in Hlt. lia.
      * destruct l as [|a l]; [rewrite length_app in Hlt; cbn in Hlt; lia|].
        specialize (Hfirst pre1 (a :: l) eq_refl ltac:(discriminate)).
        cbn [Nat.add] in Hfirst. rewrite <- Hl in Hfirst.
        revert Hfirst. apply pattern_none; auto.
        destruct Hanch1 as [[-> ->] | ->]; [left; auto | right; reflexivity].
Qed.

(** Where the text has a heading for the title, the search matches. *)
Lemma search_finds text section_name :
  has_heading text section_name ->
  Re.search (pattern section_name) text <> None.
Proof.
  intros (pre & after & lead & ws & h & -> & Hanch & Hws & Hh).
  unfold Re.search.
  destruct (Re.search_from _ 0 _) as [st|] eqn:E; [discriminate|].
  intros _.
  apply (search_from_none _ _ 0 pre (lead ++ ws ++ h ++ after)) in E; [|reflexivity].
  revert E. apply pattern_none; auto.
  destruct Hanch as [[-> ->] | ->]; [left; auto | right; reflexivity].
Qed.

Lemma extract_section_unfold text section_name m body :
  Re.search (pattern section_name) text = Some m ->
  Re.group m 2 = Some body ->
  extract_section text section_name = keep (strip body).
Proof. unfold extract_section. intros -> ->. reflexivity. Qed.

Lemma keep_some content c : keep content = Some c -> c = content.
Proof. unfold keep. destruct (_ || _); congruence. Qed.

Lemma section_at_heading text section_name body :
  section_at text section_name body -> has_heading text section_name.
Proof. intros (pre & rest' & H & _). exists pre, (body ++ rest'). exact H. Qed.

Lemma extract_section_some text section_name c :
  extract_section text section_name = Some c ->
  exists body, section_at text section_name body /\ c = strip body.
Proof.
  intros H.
  destruct (Re.search (pattern section_name) text) as [m|] eqn:E.
  - destruct (search_section _ _ _ E) as (_ & body & Hg & Hat).
    rewrite (extract_section_unfold _ _ _ _ E Hg) in H.
    exists body. split; [exact Hat | exact (keep_some _ _ H)].
  - unfold extract_section in H. rewrite E in H. discriminate.
Qed.

Lemma extract_section_heading text section_name :
  has_heading text section_name ->
  exists body, section_at text section_name body /\
    extract_section text section_name = keep (strip body).
Proof.
  intros H. apply search_finds in H.
  destruct (Re.search (pattern section_name) text) as [m|] eqn:E; [|congruence].
  destruct (search_section _ _ _ E) as (_ & body & Hg & Hat).
  exists body. split; [exact Hat | exact (extract_section_unfold _ _ _ _ E Hg)].
Qed.

(** C1. [extract_section] looks for a bolded, optionally numbered heading
    that equals the title up to case. Where the text has one, the result
    is the text from just after the first such heading up to the next
    bolded heading or the end of the text, with surrounding white space
    stripped (and dropped when nothing is left or it starts with the bold
    marker); where the text has none, the result is [None]. On the example
    of the specification the two titles give "Python" and "Proj A". *)
Theorem extract_section_heading_body (text section_name : str) :
  (has_heading text section_name ->
   exists body, section_at text section_name body /\
     extract_section text section_name = keep (strip body)) /\
  (forall c, extract_section text section_name = Some c ->
   exists body, section_at text section_name body /\ c = strip body) /\
  (~ has_heading text section_name -> extract_section text section_name = None) /\
  extract_section example_response (lit "Skills to Highlight") = Some (lit "Python") /\
  extract_section example_response (lit "Projects to Showcase") = Some (lit "Proj A").
Proof.
  split; [apply extract_section_heading|].
  split; [apply extract_section_some|].
  split; [|split; vm_compute; reflexivity].
  intros Hno. destruct (extract_section text section_name) as [c|] eqn:E; [|reflexivity].
  destruct (extract_section_some _ _ _ E) as (body & Hat & _).
  destruct Hno. exact (section_at_heading _ _ _ Hat).
Qed.

Lemma extract_section_heading_body_witness :
  exists body, section_at example_response (lit "Skills to Highlight") body /\
    lit "Python" = strip body.
Proof.
  apply (proj1 (proj2 (extract_section_heading_body example_response
                         (lit "Skills to Highlight")))).
  vm_compute. reflexivity.
Defined.

(** C5. When the pattern matches but the captured body is empty once
    stripped, or the stripped body starts with the bold marker, the
    section counts as not found: [extract_section] returns [None]. *)
Theorem extract_section_rejects (text section_name : str) (m : Re.match_object)
    (body : str) :
  Re.search (pattern section_name) text = Some m ->
  Re.group m 2 = Some body ->
  strip body = [] \/ startswith (strip body) (lit "**") = true ->
  extract_section text section_name = None.
Proof.
  intros Hm Hg Hbody. rewrite (extract_section_unfold _ _ _ _ Hm Hg).
  unfold keep. destruct Hbody as [-> | ->]; [reflexivity|].
  rewrite orb_true_r. reflexivity.
Qed.

Lemma extract_section_rejects_witness :
  extract_section empty_section (lit "Skills to Highlight") = None /\
  extract_section bold_section (lit "Skills to Highlight") = None.
Proof.
  split.
  - eapply extract_section_rejects;
      [vm_compute; reflexivity | vm_compute; reflexivity | left; reflexivity].
  - eapply extract_section_rejects;
      [vm_compute; reflexivity | vm_compute; reflexivity | right; reflexivity].
Defined.

(** X25. A section that [extract_section] returns is a piece of the
    text it was given, in one stretch and in place: the text is that
    section with something before it and something after it. *)
Theorem extract_section_in_place (text section_name c : str) :
  extract_section text section_name = Some c ->
  exists before after, text = before ++ c ++ after.
Proof.
  intros Hc.
  destruct (extract_section_some _ _ _ Hc) as (body & Hat & ->).
  destruct Hat as (pre & rest' & (lead & ws & h & -> & _) & _).
  destruct (strip_infix body) as (a & b & Hbody).
  exists (pre ++ lead ++ ws ++ h ++ a), (b ++ rest').
  rewrite Hbody at 1. rewrite <- !app_assoc. reflexivity.
Qed.

Lemma extract_section_in_place_witness :
  exists before after, example_response = before ++ lit "Proj A" ++ after.
Proof.
  apply (extract_section_in_place example_response (lit "Projects to Showcase")).
  vm_compute. reflexivity.
Defined.

(** ** [display_results] *)

Lemma startswith_app (p s : str) : startswith (p ++ s) p = true.
Proof.
  induction p as [|a p IH]; [reflexivity|]. cbn.
  rewrite bool_decide_eq_true_2 by reflexivity. exact IH.
Qed.

Lemma contains_app (p s : str) : contains p (p ++ s) = true.
Proof.
  destruct (p ++ s) eqn:E; cbn; rewrite <- E, startswith_app; reflexivity.
Qed.

Lemma display_results_failed (analysis_text : str) :
  startswith analysis_text (lit "Error:") = true \/
  contains (lit "An error occurred during Gemini analysis:") analysis_text = true ->
  display_results analysis_text =
    [st_subheader (lit "Analysis Results");
     st_error (lit "Analysis failed: " ++ analysis_text)].
Proof.
  intros H. unfold display_results.
  assert (startswith analysis_text (lit "Error:")
          || contains (lit "An error occurred during Gemini analysis:") analysis_text
          = true) as ->; [|reflexivity].
  destruct H as [-> | ->]; [reflexivity | apply orb_true_r].
Qed.

(** The four turns of the loop when no section is found. *)
Lemma display_section_missing (analysis_text section_title : str) (b : bool) :
  extract_section analysis_text section_title = None ->
  display_section analysis_text (section_title, b) =
    (st_expander section_title b
       [st_warning (lit "Could not extract '" ++ section_title ++
                    lit "' section from the AI response. Check the raw response below for formatting issues.")],
     false).
Proof. intros H. unfold display_section. rewrite H. reflexivity. Qed.

Lemma display_results_nothing_found (analysis_text : str) :
  startswith analysis_text (lit "Error:") = false ->
  contains (lit "An error occurred during Gemini analysis:") analysis_text = false ->
  (forall section_title, In section_title titles ->
     extract_section analysis_text section_title = None) ->
  analysis_text <> [] ->
  display_results analysis_text =
    [st_subheader (lit "Analysis Results")] ++ map missing_section titles ++
    [st_warning (lit "Could not parse structured sections from the AI response. Displaying raw response below:");
     raw_response_fallback analysis_text].
Proof.
  intros Hs Hc Hnone Hne. unfold display_results. rewrite Hs, Hc.
  cbn [orb sections_to_display fold_left].
  rewrite !display_section_missing by (apply Hnone; cbn; tauto).
  destruct analysis_text as [|c t]; [congruence|]. reflexivity.
Qed.

(** C10. A text that starts with [Error:] or contains the message of a
    failed request is shown as a failed analysis and nothing else: no
    section is extracted and no raw text is shown. Both texts that
    [analyze_with_gemini] returns on failure are of that kind, and so is
    an answer of the model that happens to start with [Error:]. *)
Theorem display_results_error_guard (w : world) (github_data : list repo_info)
    (resume_text job_description role company analysis_text : str) :
  (startswith analysis_text (lit "Error:") = true \/
   contains (lit "An error occurred during Gemini analysis:") analysis_text = true ->
   display_results analysis_text =
     [st_subheader (lit "Analysis Results");
      st_error (lit "Analysis failed: " ++ analysis_text)]) /\
  (generate_content w (analysis_prompt resume_text github_data role company
                         job_description) = inr analysis_text ->
   truthy_opt (session_state w !! "gemini_api_key"%string) = true ->
   startswith analysis_text (lit "Error:") = true ->
   fst (analyze_with_gemini w github_data resume_text job_description role company)
     = analysis_text /\
   display_results analysis_text =
     [st_subheader (lit "Analysis Results");
      st_error (lit "Analysis failed: " ++ analysis_text)]) /\
  (forall e,
     display_results (lit "Error: Gemini API key is missing.") =
       [st_subheader (lit "Analysis Results");
        st_error (lit "Analysis failed: " ++ lit "Error: Gemini API key is missing.")] /\
     display_results (fst (gemini_failure e)) =
       [st_subheader (lit "Analysis Results");
        st_error (lit "Analysis failed: " ++ fst (gemini_failure e))]).
Proof.
  split; [apply display_results_failed|]. split.
  - intros Hgen Hkey Hs. split; [|apply display_results_failed; auto].
    unfold analyze_with_gemini, ask_gemini. unfold str in *.
    rewrite Hkey, Hgen. reflexivity.
  - intros e. split; apply display_results_failed.
    + left. reflexivity.
    + right. cbn [gemini_failure fst].
      change (lit "An error occurred during Gemini analysis: " ++ exn_str e)
        with (lit "An error occurred during Gemini analysis:" ++ (lit " " ++ exn_str e)).
      apply contains_app.
Qed.

Lemma display_results_error_guard_witness :
  extract_section error_like_response (lit "Skills to Highlight") = Some (lit "Python") /\
  fst (analyze_with_gemini
         (example_world None None (Some (lit "key")) (inr error_like_response))
         [] (lit "resume") (lit "description") (lit "role") (lit "company"))
    = error_like_response /\
  display_results error_like_response =
    [st_subheader (lit "Analysis Results");
     st_error (lit "Analysis failed: " ++ error_like_response)].
Proof.
  split; [vm_compute; reflexivity|].
  apply (proj1 (proj2 (display_results_error_guard
           (example_world None None (Some (lit "key")) (inr error_like_response))
           [] (lit "resume") (lit "description") (lit "role") (lit "company")
           error_like_response))); reflexivity.
Defined.

(** C4, as stated, fails: a non-empty text that starts with [Error:] has
    none of the four sections, and is shown as a failed analysis, not as
    the raw response. *)
Lemma display_results_fallback_counterexample :
  lit "Error: nothing to say" <> [] /\
  (forall section_title, In section_title titles ->
     extract_section (lit "Error: nothing to say") section_title = None) /\
  display_results (lit "Error: nothing to say") =
    [st_subheader (lit "Analysis Results");
     st_error (lit "Analysis failed: Error: nothing to say")] /\
  ~ In (raw_response_fallback (lit "Error: nothing to say"))
       (display_results (lit "Error: nothing to say")).
Proof.
  split; [discriminate|]. split.
  - intros t [<- | [<- | [<- | [<- | []]]]]; vm_compute; reflexivity.
  - split; [vm_compute; reflexivity|].
    intros [H | [H | []]]; discriminate H.
Qed.

(** C4, amended. For a non-empty text that neither starts with [Error:]
    nor contains the message of a failed request, and in which none of the
    four sections is found, [display_results] shows the four "could not
    extract" notes and then the whole text as the raw response; a text with
    one of the two marks is shown whole in the failure message instead. *)
Theorem display_results_fallback (analysis_text : str) :
  analysis_text <> [] ->
  (forall section_title, In section_title titles ->
     extract_section analysis_text section_title = None) ->
  (startswith analysis_text (lit "Error:") = false ->
   contains (lit "An error occurred during Gemini analysis:") analysis_text = false ->
   display_results analysis_text =
     [st_subheader (lit "Analysis Results")] ++ map missing_section titles ++
     [st_warning (lit "Could not parse structured sections from the AI response. Displaying raw response below:");
      raw_response_fallback analysis_text] /\
   In (raw_response_fallback analysis_text) (display_results analysis_text)) /\
  (startswith analysis_text (lit "Error:") = true \/
   contains (lit "An error occurred during Gemini analysis:") analysis_text = true ->
   display_results analysis_text =
     [st_subheader (lit "Analysis Results");
      st_error (lit "Analysis failed: " ++ analysis_text)]).
Proof.
  intros Hne Hnone. split; [|apply display_results_failed].
  intros Hs Hc.
  pose proof (display_results_nothing_found _ Hs Hc Hnone Hne) as ->.
  split; [reflexivity|]. cbn. tauto.
Qed.

Lemma display_results_fallback_witness :
  In (raw_response_fallback plain_response) (display_results plain_response).
Proof.
  apply (proj1 (display_results_fallback plain_response
                  ltac:(discriminate)
                  ltac:(intros t [<- | [<- | [<- | [<- | []]]]]; vm_compute; reflexivity)));
    vm_compute; reflexivity.
Defined.

(** ** The generative client *)

(** C9. Without an API key in the session (no entry, or the empty text)
    both [analyze_with_gemini] and [answer_with_gemini] report the missing
    key and return at once: nothing is configured and no request is made. *)
Theorem gemini_missing_key (w : world) (github_data : list repo_info)
    (resume_text job_description role company question : str) :
  session_state w !! "gemini_api_key"%string = None \/
  session_state w !! "gemini_api_key"%string = Some [] ->
  let missing :=
    (lit "Error: Gemini API key is missing.",
     [st_error (lit "Gemini API key is missing. Please add it in the sidebar.")]) in
  analyze_with_gemini w github_data resume_text job_description role company = missing /\
  answer_with_gemini w github_data resume_text question role company job_description = missing /\
  (forall ev, In ev (snd (analyze_with_gemini w github_data resume_text
                            job_description role company)) \/
              In ev (snd (answer_with_gemini w github_data resume_text question
                            role company job_description)) ->
     (forall m p, ev <> generate_content_call m p) /\
     (forall k, ev <> genai_configure k)).
Proof.
  intros Hkey missing.
  assert (Hask : forall p, ask_gemini w p = missing).
  { intros p. unfold ask_gemini. unfold str in *.
    destruct Hkey as [-> | ->]; reflexivity. }
  unfold analyze_with_gemini, answer_with_gemini. rewrite !Hask.
  repeat split; intros; intros ->; cbn in *; intuition discriminate.
Qed.

Lemma gemini_missing_key_witness :
  analyze_with_gemini quiet_world [] (lit "resume") (lit "description")
    (lit "role") (lit "company") =
  (lit "Error: Gemini API key is missing.",
   [st_error (lit "Gemini API key is missing. Please add it in the sidebar.")]).
Proof.
  apply (gemini_missing_key quiet_world [] (lit "resume") (lit "description")
           (lit "role") (lit "company") (lit "question")).
  left. reflexivity.
Defined.

(** ** [fetch_github_repos] *)

Section Fetch.

Variable w : world.

Lemma bind_ret_l {A B} (a : A) (f : A -> M B) : bind (inr a, []) f = f a.
Proof. unfold bind. destruct (f a). reflexivity. Qed.

Lemma bind_inr {A B} (m : M A) (f : A -> M B) b l :
  bind m f = (inr b, l) ->
  exists a l1 l2, m = (inr a, l1) /\ f a = (inr b, l2) /\ l = l1 ++ l2.
Proof.
  unfold bind. destruct m as [[e|a] l1]; [discriminate|].
  destruct (f a) as [r l2] eqn:E. intros [= -> <-].
  exists a, l1, l2. auto.
Qed.

(** The inner [try] never raises and shows nothing. *)
Lemma read_readme_caught (repo : Repository) :
  try_except (read_readme w repo)
    (fun e => match e with
              | UnknownObjectException _ => ret []
              | _ => ret []
              end) = (inr (readme_text w repo), []).
Proof.
  unfold read_readme, readme_text, try_except, bind, lift, ret.
  destruct (get_readme repo) as [[]|content]; try reflexivity.
  destruct (b64decode w content) as [[]|b]; reflexivity.
Qed.

Lemma make_repo_info_summarize (repo : Repository) :
  make_repo_info repo (readme_text w repo) = summarize w repo.
Proof.
  unfold make_repo_info, summarize, excerpt, readme_text. f_equal.
  - destruct (description repo) as [[|c d]|]; reflexivity.
  - destruct (get_readme repo) as [e|content]; [reflexivity|].
    destruct (b64decode w content) as [e|b]; [reflexivity|].
    destruct (decode_utf8_ignore w b); reflexivity.
Qed.

Lemma non_forked_cons (repo : Repository) (repos : list Repository) :
  non_forked (repo :: repos) =
  if fork repo then non_forked repos else repo :: non_forked repos.
Proof. unfold non_forked. cbn. destruct (fork repo); reflexivity. Qed.

(** The loop keeps the first fifty non-forked repositories it meets. *)
Lemma fetch_loop_inr (repos : PaginatedList) :
  forall repo_data processed_count out log,
    fetch_loop w repos repo_data processed_count = (inr out, log) ->
    processed_count <= max_repos_to_process ->
    fst out = repo_data ++
      map (summarize w)
        (take (max_repos_to_process - processed_count)
           (non_forked (encountered repos))).
Proof.
  induction repos as [|repo more IH|e]; intros acc n out log H Hn;
    cbn [fetch_loop] in H.
  - injection H as <- _. cbn. rewrite take_nil, app_nil_r. reflexivity.
  - cbn [encountered]. rewrite non_forked_cons.
    destruct (fork repo); cbn [negb] in H; [exact (IH _ _ _ _ H Hn)|].
    destruct (max_repos_to_process <=? n) eqn:Em.
    + apply Nat.leb_le in Em. cbn in H. injection H as <- _.
      replace (max_repos_to_process - n) with 0 by lia.
      cbn. rewrite app_nil_r. reflexivity.
    + apply Nat.leb_gt in Em.
      rewrite read_readme_caught, bind_ret_l in H.
      rewrite (IH _ _ _ _ H) by lia.
      replace (max_repos_to_process - n)
        with (S (max_repos_to_process - S n)) by lia.
      cbn [take map]. rewrite make_repo_info_summarize, <- app_assoc.
      reflexivity.
  - discriminate H.
Qed.

(** On a listing that does not raise the loop succeeds, and shows at
    most the note that it stopped. *)
Lemma fetch_loop_listing (repos : list Repository) :
  forall repo_data processed_count,
    processed_count <= max_repos_to_process ->
    exists out log,
      fetch_loop w (listing repos) repo_data processed_count = (inr out, log) /\
      (processed_count = 0 -> non_forked repos = [] -> snd out = 0) /\
      (forall msg, ~ In (st_error msg) log).
Proof.
  induction repos as [|repo repos IH]; intros acc n Hn; cbn [listing fold_right fetch_loop].
  - exists (acc, n), []. repeat split; auto.
  - fold (listing repos). rewrite non_forked_cons.
    destruct (fork repo); cbn [negb].
    + apply IH, Hn.
    + destruct (max_repos_to_process <=? n) eqn:Em.
      * eexists _, _. cbn. split; [reflexivity|]. split.
        -- intros -> _. discriminate Em.
        -- intros msg [H | []]. discriminate H.
      * apply Nat.leb_gt in Em.
        rewrite read_readme_caught, bind_ret_l.
        destruct (IH (acc ++ [make_repo_info repo (readme_text w repo)]) (S n))
          as (out & log & -> & _ & Hlog); [lia|].
        exists out, log. repeat split; auto. discriminate.
Qed.

(** The icon of line 59 is none Streamlit takes: the warning raises
    and shows nothing. *)
Lemma no_token_warning_raises (body : str) :
  st_sidebar_warning_icon w body no_token_icon =
    (inl (Exception (lit "StreamlitAPIException")
            (invalid_icon_message (streamlit w) no_token_icon)), []).
Proof. reflexivity. Qed.

Variable username : str.
Variable github_token_from_input : option str.

#[local] Abbreviation cred := (credential w github_token_from_input).
#[local] Abbreviation github_token :=
  (resolve_github_token w github_token_from_input).

Lemma truthy_credential :
  truthy_opt github_token = match cred with Some _ => true | None => false end.
Proof.
  unfold credential, as_credential. destruct (truthy_opt github_token) eqn:E.
  - destruct github_token; [reflexivity | discriminate E].
  - reflexivity.
Qed.

Lemma credential_token :
  truthy_opt github_token = true -> cred = github_token.
Proof. intros E. unfold credential, as_credential. rewrite E. reflexivity. Qed.

Lemma credential_no_token :
  truthy_opt github_token = false <-> cred = None.
Proof.
  rewrite truthy_credential. destruct cred; split; congruence.
Qed.

Lemma authenticated_token :
  authenticated w github_token_from_input ->
  truthy_opt github_token = true /\ cred = github_token.
Proof.
  intros [token Ht]. assert (E : truthy_opt github_token = true).
  { rewrite truthy_credential, Ht. reflexivity. }
  split; [exact E | exact (credential_token E)].
Qed.

(** Without a token the client is made, and the warning raises. *)
Lemma make_client_no_token :
  cred = None ->
  make_client w github_token =
    (inl (Exception (lit "StreamlitAPIException")
            (invalid_icon_message (streamlit w) no_token_icon)),
     [new_Github None]).
Proof.
  intros Hc. apply credential_no_token in Hc. unfold make_client. rewrite Hc.
  cbv zeta. rewrite no_token_warning_raises. reflexivity.
Qed.

Lemma no_error_app l1 l2 : no_error l1 -> no_error l2 -> no_error (l1 ++ l2).
Proof.
  intros H1 H2 msg Hin. apply in_app_or in Hin as [Hin | Hin];
    [exact (H1 _ Hin) | exact (H2 _ Hin)].
Qed.

(** The first thing the call does is to make its client. *)
Lemma make_client_authenticated :
  authenticated w github_token_from_input ->
  make_client w github_token = (inr (github w cred), [new_Github cred]).
Proof.
  intros Ha. destruct (authenticated_token Ha) as [E ->].
  unfold make_client. rewrite E. reflexivity.
Qed.

Lemma make_client_head :
  exists r log, make_client w github_token = (r, new_Github cred :: log).
Proof.
  destruct cred as [token|] eqn:Ec.
  - rewrite make_client_authenticated by (exists token; exact Ec).
    rewrite Ec. eexists _, _. reflexivity.
  - rewrite (make_client_no_token Ec). eexists _, _. reflexivity.
Qed.

Lemma make_client_inr g log :
  make_client w github_token = (inr g, log) -> g = github w cred.
Proof.
  destruct cred as [token|] eqn:Ec.
  - rewrite make_client_authenticated by (exists token; exact Ec).
    rewrite Ec. intros [= <- _]. reflexivity.
  - rewrite (make_client_no_token Ec). discriminate.
Qed.

Lemma note_if_none_spec repo_data processed_count :
  exists log,
    note_if_none username repo_data processed_count = (inr tt, log) /\
    no_error log /\
    (repo_data = [] -> processed_count = 0 ->
     log = [st_sidebar_warning
              (lit "No non-forked public repositories found for user '" ++
               username ++ lit "'.")]).
Proof.
  unfold note_if_none. destruct (negb _ && _) eqn:E.
  - eexists. split; [reflexivity|]. split; [|reflexivity].
    intros msg [H | []]. discriminate H.
  - exists []. split; [reflexivity|]. split; [intros msg []|].
    intros -> ->. discriminate E.
Qed.

Lemma fetch_failed_data github_token e :
  fst (fetch_failed username github_token e) = [].
Proof. destruct e; reflexivity. Qed.

Lemma bind_log_head {A B} (m : M A) (f : A -> M B) ev l :
  snd m = ev :: l -> exists l', snd (bind m f) = ev :: l'.
Proof.
  unfold bind. destruct m as [[e|a] l0]; cbn [snd]; intros ->.
  - eexists. reflexivity.
  - destruct (f a). eexists. reflexivity.
Qed.

Lemma handle_log_head {A} (m : M A) (h : exn -> A * list event) ev l :
  snd m = ev :: l -> exists l', snd (handle m h) = ev :: l'.
Proof.
  unfold handle. destruct m as [[e|a] l0]; cbn [snd]; intros ->.
  - destruct (h e). eexists. reflexivity.
  - eexists. reflexivity.
Qed.

Lemma fetch_log_head :
  exists log,
    snd (fetch_github_repos w username github_token_from_input)
    = new_Github cred :: log.
Proof.
  unfold fetch_github_repos, fetch_body. cbv zeta.
  destruct make_client_head as (r & l0 & E).
  destruct (bind_log_head
              (make_client w (resolve_github_token w github_token_from_input))
              (fun g =>
                 let* user := lift (get_user g username) in
                 let* out := fetch_loop w (get_repos user (lit "updated") (lit "desc")) [] 0 in
                 note_if_none username (fst out) (snd out) ;; ret (fst out))
              (new_Github cred) l0) as [l1 H1]; [rewrite E; reflexivity|].
  exact (handle_log_head _ _ _ _ H1).
Qed.

(** Either nothing is returned, or what the loop collected. *)
Lemma fetch_data_cases :
  fst (fetch_github_repos w username github_token_from_input) = [] \/
  exists user out log,
    get_user (github w cred) username = inr user /\
    fetch_loop w (get_repos user (lit "updated") (lit "desc")) [] 0 = (inr out, log) /\
    fst (fetch_github_repos w username github_token_from_input) = fst out.
Proof.
  unfold fetch_github_repos. cbv zeta.
  destruct (fetch_body w username _) as [[e|data] l] eqn:E; unfold handle.
  - left. pose proof (fetch_failed_data (resolve_github_token w github_token_from_input) e).
    destruct (fetch_failed _ _ e). exact H.
  - right. unfold fetch_body in E. cbv zeta in E.
    apply bind_inr in E as (g & l1 & l2 & Hg & E & _).
    apply make_client_inr in Hg. subst g.
    apply bind_inr in E as (user & l3 & l4 & Hu & E & _).
    apply bind_inr in E as (out & l5 & l6 & Hl & E & _).
    apply bind_inr in E as ([] & l7 & l8 & _ & E & _).
    injection E as <- _. injection Hu as Hu _.
    exists user, out, l5. auto.
Qed.

(** An unknown user: the message, and the empty list. *)
Lemma fetch_unknown_user message :
  authenticated w github_token_from_input ->
  get_user (github w cred) username = inl (UnknownObjectException message) ->
  fetch_github_repos w username github_token_from_input =
    ([], [new_Github cred;
          st_error (lit "GitHub user '" ++ username ++
                    lit "' not found. Please check the username.")]).
Proof.
  intros Ha Hu. unfold fetch_github_repos, fetch_body. cbv zeta.
  rewrite (make_client_authenticated Ha).
  cbn [bind]. rewrite Hu. reflexivity.
Qed.

(** A listing that the loop gets through: what it collected, and no
    error message. *)
Lemma fetch_success user out log :
  authenticated w github_token_from_input ->
  get_user (github w cred) username = inr user ->
  fetch_loop w (get_repos user (lit "updated") (lit "desc")) [] 0 = (inr out, log) ->
  no_error log ->
  exists log',
    fetch_github_repos w username github_token_from_input = (fst out, log') /\
    no_error log' /\
    (fst out = [] -> snd out = 0 ->
     exists log'', log' = log'' ++
       [st_sidebar_warning (lit "No non-forked public repositories found for user '" ++
                            username ++ lit "'.")]).
Proof.
  intros Ha Hu Hl Hlog. unfold fetch_github_repos, fetch_body. cbv zeta.
  rewrite (make_client_authenticated Ha).
  cbn [bind]. rewrite Hu. cbn [bind lift]. rewrite Hl. cbn [bind].
  destruct (note_if_none_spec (fst out) (snd out)) as (l2 & -> & Hl2 & Hend).
  cbn [ret handle app]. eexists. split; [reflexivity|]. split.
  - rewrite app_nil_r. apply (no_error_app [_]); [intros msg [H | []]; discriminate H|].
    repeat apply no_error_app; auto.
  - intros H1 H2. rewrite (Hend H1 H2), app_nil_r.
    exists (new_Github cred :: log). reflexivity.
Qed.

End Fetch.

Lemma encountered_listing (repos : list Repository) :
  encountered (listing repos) = repos.
Proof.
  induction repos as [|repo repos IH]; [reflexivity|].
  cbn. fold (listing repos). rewrite IH. reflexivity.
Qed.

Lemma excerpt_length (w : world) (repo : Repository) :
  length (excerpt w repo) <= 8000.
Proof.
  unfold excerpt. destruct (get_readme repo) as [e|content]; [cbn; lia|].
  destruct (b64decode w content) as [e|b]; [cbn; lia|].
  apply firstn_le_length.
Qed.

Lemma non_forked_fork (repos : list Repository) (n : nat) :
  Forall (fun repo => fork repo = false) (take n (non_forked repos)).
Proof.
  apply Forall_take, List.Forall_forall. intros repo Hin.
  apply filter_In in Hin as [_ Hf]. destruct (fork repo); [discriminate | reflexivity].
Qed.

(** C2. Whatever the user name and the credential, the list returned
    by [fetch_github_repos] has at most 50 entries, each with a README
    excerpt of at most 8000 characters, and it is made of the non-forked
    repositories in the order the listing (most recently updated first)
    yields them: nothing, or the summaries of the first 50 of them. *)
Theorem fetch_github_repos_bounds (w : world) (username : str)
    (github_token_from_input : option str) :
  let repo_data := fst (fetch_github_repos w username github_token_from_input) in
  length repo_data <= 50 /\
  Forall (fun info => length (info_readme info) <= 8000) repo_data /\
  exists kept,
    repo_data = map (summarize w) kept /\
    Forall (fun repo => fork repo = false) kept /\
    (kept = [] \/
     exists user,
       get_user (github w (credential w github_token_from_input)) username = inr user /\
       kept = take 50 (non_forked (encountered
                (get_repos user (lit "updated") (lit "desc"))))).
Proof.
  cbv zeta.
  destruct (fetch_data_cases w username github_token_from_input)
    as [-> | (user & out & log & Hu & Hl & ->)].
  - split; [cbn; lia|]. split; [constructor|].
    exists []. repeat split; auto.
  - apply fetch_loop_inr in Hl; [|unfold max_repos_to_process; lia].
    rewrite Hl. unfold max_repos_to_process. rewrite Nat.sub_0_r. cbn [app].
    split; [rewrite length_map; apply firstn_le_length|]. split.
    + apply Forall_map, List.Forall_forall. intros repo _. apply excerpt_length.
    + eexists. split; [reflexivity|]. split; [apply non_forked_fork|].
      right. exists user. auto.
Qed.

(** The example of the specification: three repositories of the user's
    own among two forks give three summaries, in the order of the
    listing. *)
Example fetch_three_of_five :
  fst (fetch_github_repos quiet_world (lit "octocat") (Some (lit "token"))) =
    [ RepoInfo (lit "alpha") (lit "First") (lit "Alpha readme");
      RepoInfo (lit "beta") (lit "No description provided.") [];
      RepoInfo (lit "gamma") (lit "No description provided.") [] ].
Proof. vm_compute. reflexivity. Qed.

(** C7. When the call has a token (repositories are read on no other
    path), the user exists and the listing does not raise, the call
    returns the summaries of the first 50 non-forked repositories and
    shows no error, whatever happens to their READMEs; a repository whose
    README cannot be fetched or decoded is in the result with an empty
    excerpt. *)
Theorem readme_failure_swallowed (w : world) (username : str)
    (github_token_from_input : option str) (user : NamedUser)
    (repos : list Repository) :
  authenticated w github_token_from_input ->
  get_user (github w (credential w github_token_from_input)) username = inr user ->
  get_repos user (lit "updated") (lit "desc") = listing repos ->
  fst (fetch_github_repos w username github_token_from_input) =
    map (summarize w) (take 50 (non_forked repos)) /\
  no_error (snd (fetch_github_repos w username github_token_from_input)) /\
  (forall repo, In repo (take 50 (non_forked repos)) -> readme_fails w repo ->
     In (summarize w repo)
        (fst (fetch_github_repos w username github_token_from_input)) /\
     info_readme (summarize w repo) = []).
Proof.
  intros Hconn Hu Hrepos.
  destruct (fetch_loop_listing w repos [] 0) as (out & log & Hl & _ & Hlog);
    [lia|].
  rewrite <- Hrepos in Hl.
  destruct (fetch_success w username github_token_from_input user out log
              Hconn Hu Hl Hlog) as (log' & -> & Hno & _).
  apply fetch_loop_inr in Hl; [|lia].
  rewrite Hrepos, encountered_listing in Hl. cbn [fst snd].
  rewrite Hl. unfold max_repos_to_process. rewrite Nat.sub_0_r. cbn [app].
  split; [reflexivity|]. split; [exact Hno|].
  intros repo Hin Hfail. split; [apply in_map, Hin|].
  unfold summarize, excerpt, readme_fails in *. cbn [info_readme].
  destruct (get_readme repo) as [e|content]; [reflexivity|].
  destruct (b64decode w content); [reflexivity | contradiction].
Qed.

Lemma readme_failure_swallowed_witness :
  fst (fetch_github_repos quiet_world (lit "octocat") (Some (lit "token"))) =
    map (summarize quiet_world) (take 50 (non_forked five_repos)) /\
  no_error (snd (fetch_github_repos quiet_world (lit "octocat") (Some (lit "token")))) /\
  (forall repo, In repo (take 50 (non_forked five_repos)) ->
     readme_fails quiet_world repo ->
     In (summarize quiet_world repo)
        (fst (fetch_github_repos quiet_world (lit "octocat") (Some (lit "token")))) /\
     info_readme (summarize quiet_world repo) = []).
Proof.
  apply (readme_failure_swallowed quiet_world (lit "octocat") (Some (lit "token"))
           {| get_repos := fun _ _ => listing five_repos |} five_repos).
  - exists (lit "token"). reflexivity.
  - reflexivity.
  - reflexivity.
Defined.

(** C3, as stated, fails: called with a token, for a user that does
    not exist and for a user without repositories [fetch_github_repos]
    returns the same value, the empty list, and it raises nothing. *)
Lemma fetch_unknown_user_counterexample :
  credential quiet_world (Some (lit "token")) = Some (lit "token") /\
  get_user (github quiet_world (Some (lit "token"))) (lit "ghost")
    = inl (UnknownObjectException (lit "Not Found")) /\
  (exists user,
     get_user (github quiet_world (Some (lit "token"))) (lit "newbie") = inr user /\
     get_repos user (lit "updated") (lit "desc") = listing []) /\
  fst (fetch_github_repos quiet_world (lit "ghost") (Some (lit "token"))) = [] /\
  fst (fetch_github_repos quiet_world (lit "ghost") (Some (lit "token"))) =
  fst (fetch_github_repos quiet_world (lit "newbie") (Some (lit "token"))).
Proof.
  split; [reflexivity|]. split; [reflexivity|].
  split; [eexists; split; reflexivity|].
  split; vm_compute; reflexivity.
Qed.

(** C3, amended. When the call has a token, a user that does not
    exist and a user that has no non-forked repository both give the empty
    list; what tells them apart is the message shown last: an error that
    the user was not found, or a sidebar warning that no non-forked
    repository was found, with no error shown. *)
Theorem fetch_unknown_user_or_none (w : world) (username : str)
    (github_token_from_input : option str) :
  authenticated w github_token_from_input ->
  (forall message,
     get_user (github w (credential w github_token_from_input)) username
       = inl (UnknownObjectException message) ->
     exists log,
       fetch_github_repos w username github_token_from_input =
         ([], log ++ [st_error (lit "GitHub user '" ++ username ++
                                lit "' not found. Please check the username.")]) /\
       no_error log) /\
  (forall user repos,
     get_user (github w (credential w github_token_from_input)) username = inr user ->
     get_repos user (lit "updated") (lit "desc") = listing repos ->
     non_forked repos = [] ->
     exists log,
       fetch_github_repos w username github_token_from_input =
         ([], log ++ [st_sidebar_warning
                        (lit "No non-forked public repositories found for user '" ++
                         username ++ lit "'.")]) /\
       no_error log).
Proof.
  intros Hconn. split.
  - intros message Hu.
    rewrite (fetch_unknown_user w username _ message Hconn Hu).
    exists [new_Github (credential w github_token_from_input)].
    split; [reflexivity|]. intros msg [H | []]. discriminate H.
  - intros user repos Hu Hrepos Hnone.
    destruct (fetch_loop_listing w repos [] 0) as (out & log & Hl & Hcount & Hlog);
      [lia|].
    rewrite <- Hrepos in Hl.
    destruct (fetch_success w username github_token_from_input user out log
                Hconn Hu Hl Hlog) as (log' & E & Hno & Hend).
    apply fetch_loop_inr in Hl; [|lia].
    rewrite Hrepos, encountered_listing, Hnone, take_nil in Hl. cbn in Hl.
    destruct (Hend Hl (Hcount eq_refl Hnone)) as [log'' ->].
    exists log''. rewrite E, Hl. split; [reflexivity|].
    intros msg Hin. apply (Hno msg), in_or_app. left. exact Hin.
Qed.

Lemma fetch_unknown_user_or_none_witness :
  exists log,
    fetch_github_repos quiet_world (lit "ghost") (Some (lit "token")) =
      ([], log ++ [st_error (lit "GitHub user '" ++ lit "ghost" ++
                             lit "' not found. Please check the username.")]) /\
    no_error log.
Proof.
  apply (proj1 (fetch_unknown_user_or_none quiet_world (lit "ghost")
                  (Some (lit "token"))
                  (ex_intro _ (lit "token") eq_refl))
           (lit "Not Found")).
  reflexivity.
Defined.

(** The environment as line 49 reads it holds the entry of the secret
    store whenever the store was read and has one. *)
Lemma read_secrets_environ (w : world) (s : gmap string str) (v : str) :
  secrets w = Some s ->
  s !! "GITHUB_TOKEN"%string = Some v ->
  snd (read_secrets w) !! "GITHUB_TOKEN"%string = Some v.
Proof.
  intros Hs Hv. unfold read_secrets. rewrite Hs. cbn [snd].
  apply lookup_union_Some_l. exact Hv.
Qed.

Lemma read_secrets_environ_none (w : world) (s : gmap string str) :
  secrets w = Some s ->
  s !! "GITHUB_TOKEN"%string = None ->
  snd (read_secrets w) !! "GITHUB_TOKEN"%string =
  environ w !! "GITHUB_TOKEN"%string.
Proof.
  intros Hs Hv. unfold read_secrets. rewrite Hs. cbn [snd].
  apply lookup_union_r. exact Hv.
Qed.

(** An empty [GITHUB_TOKEN] in the secret store wins over a token in
    the environment: reading the store has put the empty text in its
    place, and the client is made without a credential. *)
Example empty_secret_shadows_environment :
  let w := example_world (Some []) (Some (lit "env-token")) None (inr []) in
  resolve_github_token w None = Some [] /\
  exists log, snd (fetch_github_repos w (lit "octocat") None) = new_Github None :: log.
Proof.
  cbv zeta. split; [vm_compute; reflexivity|]. eexists. vm_compute. reflexivity.
Qed.

(** C8. The token [fetch_github_repos] goes on with is that of the first
    source that is present: the explicit argument if it is not empty,
    otherwise [GITHUB_TOKEN] of the secret store if the store holds it,
    otherwise [GITHUB_TOKEN] of the environment if it is set, otherwise
    none. The client is made with that token, and without a credential
    when there is none or when it is the empty text. *)
Theorem fetch_github_repos_credential (w : world) (username : str)
    (github_token_from_input : option str) :
  resolve_github_token w github_token_from_input =
    first_present (token_sources w github_token_from_input) /\
  exists log,
    snd (fetch_github_repos w username github_token_from_input) =
      new_Github (as_credential
                    (first_present (token_sources w github_token_from_input))) :: log.
Proof.
  assert (H : resolve_github_token w github_token_from_input =
              first_present (token_sources w github_token_from_input)).
  { unfold resolve_github_token, token_sources. cbv zeta.
    destruct (truthy_opt github_token_from_input) eqn:Ei; cbn [negb].
    - rewrite Ei. cbn [negb].
      destruct github_token_from_input; [reflexivity | discriminate Ei].
    - pose proof (read_secrets_environ w) as Hin.
      pose proof (read_secrets_environ_none w) as Hout.
      unfold read_secrets in *. cbn [first_present].
      destruct (secrets w) as [s|]; cbn [snd] in *.
      + destruct (s !! "GITHUB_TOKEN"%string) as [v|] eqn:Ev.
        * destruct (truthy_opt (Some v)) eqn:Et; cbn [negb]; [reflexivity|].
          exact (Hin s v eq_refl Ev).
        * rewrite Ei. cbn [negb]. rewrite (Hout s eq_refl Ev).
          destruct (environ w !! "GITHUB_TOKEN"%string); reflexivity.
      + rewrite Ei. cbn [negb].
        destruct (environ w !! "GITHUB_TOKEN"%string); reflexivity. }
  split; [exact H|]. rewrite <- H. apply fetch_log_head.
Qed.

(** ** More about [extract_section] *)

Section MatcherExt.

Import Re.

(** The matcher only looks at what its continuation returns. *)
Lemma rep_greedy_ext cl (k1 k2 : cont) g s :
  (forall st, k1 st = k2 st) ->
  forall lo p, rep_greedy cl lo k1 p s g = rep_greedy cl lo k2 p s g.
Proof.
  intros Hk. induction s as [|c s IH]; intros lo p; cbn.
  - destruct lo; [apply Hk | reflexivity].
  - rewrite IH. destruct lo; rewrite ?Hk; reflexivity.
Qed.

Lemma rep_lazy_ext cl (k1 k2 : cont) g s :
  (forall st, k1 st = k2 st) ->
  forall lo p, rep_lazy cl lo k1 p s g = rep_lazy cl lo k2 p s g.
Proof.
  intros Hk. induction s as [|c s IH]; intros lo p; cbn.
  - destruct lo; rewrite ?Hk; reflexivity.
  - rewrite IH. destruct lo; rewrite ?Hk; reflexivity.
Qed.

Lemma run_ext r : forall (k1 k2 : cont),
  (forall st, k1 st = k2 st) -> forall st, run r k1 st = run r k2 st.
Proof.
  induction r as [l| | |r1 IH1 r2 IH2|r1 IH1 r2 IH2|greedy lo cl|r1 IH1|n r1 IH1|r1 IH1];
    intros k1 k2 Hk st; cbn [run].
  - destruct (lit_prefix l (rest st)); [apply Hk | reflexivity].
  - destruct (pos st =? 0); [apply Hk | reflexivity].
  - destruct (rest st); [apply Hk | reflexivity].
  - apply IH1. intros st'. apply IH2, Hk.
  - rewrite (IH1 k1 k2 Hk), (IH2 k1 k2 Hk). reflexivity.
  - destruct greedy; [apply rep_greedy_ext | apply rep_lazy_ext]; exact Hk.
  - rewrite (IH1 k1 k2 Hk), Hk. reflexivity.
  - apply IH1. intros st'. apply Hk.
  - destruct (run r1 Some st); [apply Hk | reflexivity].
Qed.

Lemma lit_prefix_nocase n1 : forall n2 s,
  same_nocase n1 n2 -> lit_prefix n1 s = lit_prefix n2 s.
Proof.
  unfold same_nocase, lower.
  induction n1 as [|a n1 IH]; intros [|b n2] s H; try discriminate H; [reflexivity|].
  cbn in H. injection H as Hab Hn. cbn. destruct s as [|c s]; [reflexivity|].
  rewrite (IH _ _ Hn). unfold Chars.eq_nocase. rewrite Hab. reflexivity.
Qed.

Lemma run_lit_nocase n1 n2 k st :
  same_nocase n1 n2 -> run (Lit n1) k st = run (Lit n2) k st.
Proof.
  intros H. cbn [run]. rewrite (lit_prefix_nocase _ _ _ H).
  unfold advance. rewrite (same_nocase_length _ _ H). reflexivity.
Qed.

Lemma pattern_nocase n1 n2 st :
  same_nocase n1 n2 -> run (pattern n1) Some st = run (pattern n2) Some st.
Proof.
  intros H. unfold pattern.
  do 4 (rewrite !run_seq; apply run_ext; intros ?).
  rewrite !run_seq. apply run_lit_nocase, H.
Qed.

Lemma search_from_ext r1 r2 s :
  (forall st, run r1 Some st = run r2 Some st) ->
  forall p, search_from r1 p s = search_from r2 p s.
Proof.
  intros H. induction s as [|c s IH]; intros p; cbn [search_from]; rewrite H, ?IH;
    reflexivity.
Qed.

End MatcherExt.

Lemma lstrip_fixed (s : str) : lstrip (lstrip s) = lstrip s.
Proof.
  induction s as [|c s IH]; [reflexivity|]. cbn.
  destruct (Chars.isspace c) eqn:E; [exact IH|]. cbn. rewrite E. reflexivity.
Qed.

Lemma lstrip_head (s : str) a :
  head (lstrip s) = Some a -> Chars.isspace a = false.
Proof.
  induction s as [|c s IH]; [discriminate|]. cbn.
  destruct (Chars.isspace c) eqn:E; [exact IH|]. cbn. congruence.
Qed.

Lemma lstrip_keeps_end (s : str) c :
  Chars.isspace c = false -> exists t, lstrip (s ++ [c]) = t ++ [c].
Proof.
  intros Hc. induction s as [|a s [t IH]]; cbn.
  - rewrite Hc. exists []. reflexivity.
  - destruct (Chars.isspace a); [exists t; exact IH|].
    exists (a :: s). reflexivity.
Qed.

Lemma last_rev_head (s : str) : last (rev s) = head s.
Proof. destruct s as [|c s]; [reflexivity|]. cbn. apply last_snoc. Qed.

(** A stripped text has no white space at either end. *)
Lemma strip_ends (s : str) :
  (forall a, head (strip s) = Some a -> Chars.isspace a = false) /\
  (forall z, last (strip s) = Some z -> Chars.isspace z = false).
Proof.
  unfold strip, rstrip. split.
  - intros a Ha.
    destruct (lstrip s) as [|c t] eqn:E; [discriminate Ha|].
    assert (Hc : Chars.isspace c = false).
    { apply (lstrip_head s). rewrite E. reflexivity. }
    cbn [rev] in Ha. destruct (lstrip_keeps_end (rev t) c Hc) as [u Hu].
    rewrite Hu, rev_app_distr in Ha. cbn in Ha. congruence.
  - intros z Hz. rewrite last_rev_head in Hz. apply lstrip_head in Hz. exact Hz.
Qed.

Lemma extract_section_kept (text section_name c : str) :
  extract_section text section_name = Some c ->
  c <> [] /\ startswith c (lit "**") = false /\ exists body, c = strip body.
Proof.
  intros H.
  destruct (Re.search (pattern section_name) text) as [m|] eqn:E;
    [|unfold extract_section in H; rewrite E in H; discriminate].
  destruct (search_section _ _ _ E) as (_ & body & Hg & _).
  rewrite (extract_section_unfold _ _ _ _ E Hg) in H. unfold keep in H.
  destruct (negb (truthy (strip body))) eqn:Et; [discriminate|].
  destruct (startswith (strip body) (lit "**")) eqn:Es; [discriminate|].
  injection H as <-. split.
  - intros Hnil. rewrite Hnil in Et. discriminate.
  - split; [exact Es | exists body; reflexivity].
Qed.

(** X1. A section that [extract_section] returns is never empty, never
    starts with the bold marker, and has no white space at its start or
    at its end. *)
Theorem extract_section_result_shape (text section_name c : str) :
  extract_section text section_name = Some c ->
  c <> [] /\
  startswith c (lit "**") = false /\
  (forall a, head c = Some a -> Chars.isspace a = false) /\
  (forall z, last c = Some z -> Chars.isspace z = false).
Proof.
  intros H. destruct (extract_section_kept _ _ _ H) as (Hne & Hs & body & ->).
  repeat split; auto; apply strip_ends.
Qed.

Lemma extract_section_result_shape_witness :
  lit "Proj A" <> [] /\
  startswith (lit "Proj A") (lit "**") = false /\
  (forall a, head (lit "Proj A") = Some a -> Chars.isspace a = false) /\
  (forall z, last (lit "Proj A") = Some z -> Chars.isspace z = false).
Proof.
  apply (extract_section_result_shape example_response (lit "Projects to Showcase")).
  vm_compute. reflexivity.
Defined.

(** X2. The title asked for is matched without regard to the case of
    its letters: two titles that differ only in case give the same
    result on every text. *)
Theorem extract_section_title_nocase (text n1 n2 : str) :
  same_nocase n1 n2 ->
  extract_section text n1 = extract_section text n2.
Proof.
  intros H. unfold extract_section, Re.search.
  rewrite (search_from_ext (pattern n1) (pattern n2) text
             (fun st => pattern_nocase n1 n2 st H) 0).
  reflexivity.
Qed.

Lemma extract_section_title_nocase_witness :
  extract_section example_response (lit "SKILLS to highlight") =
  extract_section example_response (lit "Skills to Highlight").
Proof.
  apply (extract_section_title_nocase example_response).
  vm_compute. reflexivity.
Defined.


(** ** More about [display_results] *)

Lemma contains_middle (p a b : str) : contains p (a ++ p ++ b) = true.
Proof.
  induction a as [|c a IH]; [apply (contains_app p b)|].
  cbn [app contains]. rewrite IH. apply orb_true_r.
Qed.

Lemma has_heading_bold (text section_name : str) :
  has_heading text section_name -> contains (lit "**") text = true.
Proof.
  intros (pre & after & lead & ws & h & -> & _ & _ & num & ttl & -> & _).
  replace (pre ++ lead ++ ws ++ (lit "**" ++ num ++ ttl ++ lit "**") ++ after)
    with ((pre ++ lead ++ ws) ++ lit "**" ++ (num ++ ttl ++ lit "**" ++ after))
    by (rewrite <- !app_assoc; reflexivity).
  apply contains_middle.
Qed.

Lemma extract_section_nil (section_name : str) :
  extract_section [] section_name = None.
Proof. reflexivity. Qed.

Lemma display_section_found (analysis_text section_title c : str) (b : bool) :
  extract_section analysis_text section_title = Some c ->
  display_section analysis_text (section_title, b) =
    (st_expander section_title b
       ([st_markdown c] ++
        (if bool_decide (section_title = lit "Resume Objective") then
           [st_text_area (lit "Copy-paste ready objective:") c 100
              (lit "copy_" ++ replace " " "_" (lower section_title))]
         else [])),
     true).
Proof.
  intros H. unfold display_section. rewrite H.
  destruct (extract_section_kept _ _ _ H) as (Hne & _).
  destruct c; [congruence | reflexivity].
Qed.

Lemma display_section_label (analysis_text section_title : str) (b : bool) :
  exists children,
    fst (display_section analysis_text (section_title, b)) =
      st_expander section_title b children /\
    (snd (display_section analysis_text (section_title, b)) = true <->
     extract_section analysis_text section_title <> None).
Proof.
  destruct (extract_section analysis_text section_title) as [c|] eqn:E.
  - rewrite (display_section_found _ _ _ _ E). eexists. split; [reflexivity|].
    cbn [snd]. split; [intros _; discriminate | reflexivity].
  - rewrite (display_section_missing _ _ _ E). eexists. split; [reflexivity|].
    cbn [snd]. split; [discriminate | congruence].
Qed.

(** The loop over the titles: the expanders it shows and how many
    sections it counts. *)
Lemma display_loop (analysis_text : str) (entries : list (str * bool)) :
  forall shown count,
    fold_left
      (fun '(shown, sections_found_count) entry =>
         let '(expander, found) := display_section analysis_text entry in
         (shown ++ [expander],
          if found then S sections_found_count else sections_found_count))
      entries (shown, count)
    = (shown ++ map (fun entry => fst (display_section analysis_text entry)) entries,
       count + length (List.filter
                         (fun entry => snd (display_section analysis_text entry))
                         entries)).
Proof.
  induction entries as [|entry entries IH]; intros shown count; cbn [fold_left].
  - cbn. rewrite app_nil_r, Nat.add_0_r. reflexivity.
  - destruct (display_section analysis_text entry) as [expander found] eqn:E.
    rewrite IH. cbn [map List.filter]. rewrite E. cbn [fst snd].
    rewrite <- app_assoc. destruct found; cbn [length app];
      rewrite ?Nat.add_succ_r; reflexivity.
Qed.

Lemma display_results_passed (analysis_text : str) :
  startswith analysis_text (lit "Error:") = false ->
  contains (lit "An error occurred during Gemini analysis:") analysis_text = false ->
  display_results analysis_text =
    [st_subheader (lit "Analysis Results")] ++
    map (section_expander analysis_text) titles ++
    (if (length (List.filter
                   (fun entry => snd (display_section analysis_text entry))
                   sections_to_display) =? 0)
        && truthy analysis_text
     then [parsing_failed_warning; raw_response_fallback analysis_text]
     else if truthy analysis_text then [raw_response_offer analysis_text]
     else []).
Proof.
  intros Hs Hc. unfold display_results. rewrite Hs, Hc. cbn [orb negb].
  rewrite display_loop. cbn [app Nat.add]. rewrite andb_true_r.
  reflexivity.
Qed.

Lemma found_count (analysis_text : str) (entries : list (str * bool)) :
  length (List.filter (fun entry => snd (display_section analysis_text entry))
            entries) = 0 <->
  forall entry, In entry entries ->
    extract_section analysis_text (fst entry) = None.
Proof.
  induction entries as [|[t b] entries IH]; cbn [List.filter].
  - split; [intros _ e [] | reflexivity].
  - destruct (display_section_label analysis_text t b) as (ch & _ & Hf).
    destruct (snd (display_section analysis_text (t, b))) eqn:E; cbn [length].
    + split; [discriminate|]. intros H.
      destruct (proj1 Hf eq_refl). apply (H (t, b)). left. reflexivity.
    + rewrite IH. split.
      * intros H e [<- | Hin]; [|apply H, Hin]. cbn.
        destruct (extract_section analysis_text t) eqn:Ex; [|reflexivity].
        assert (false = true) by (apply Hf; congruence). discriminate.
      * intros H e Hin. apply H. right. exact Hin.
Qed.

(** X3. A non-empty answer that holds no bold marker at all and does
    not look like an error is never lost: the four sections are reported
    as missing and the whole answer is shown as the raw response. *)
Theorem display_results_plain_text (analysis_text : str) :
  analysis_text <> [] ->
  contains (lit "**") analysis_text = false ->
  startswith analysis_text (lit "Error:") = false ->
  contains (lit "An error occurred during Gemini analysis:") analysis_text = false ->
  display_results analysis_text =
    [st_subheader (lit "Analysis Results")] ++ map missing_section titles ++
    [parsing_failed_warning; raw_response_fallback analysis_text].
Proof.
  intros Hne Hbold Hs Hc.
  apply display_results_nothing_found; auto.
  intros title _.
  destruct (extract_section analysis_text title) as [c|] eqn:E; [|reflexivity].
  destruct (extract_section_some _ _ _ E) as (body & Hat & _).
  apply section_at_heading, has_heading_bold in Hat. congruence.
Qed.

Lemma display_results_plain_text_witness :
  display_results plain_response =
    [st_subheader (lit "Analysis Results")] ++ map missing_section titles ++
    [parsing_failed_warning; raw_response_fallback plain_response].
Proof.
  apply (display_results_plain_text plain_response);
    [discriminate | reflexivity | reflexivity | reflexivity].
Defined.

(** X4. When at least one of the four sections is found in an answer
    that does not look like an error, the page ends with the collapsed
    expander that offers the raw answer, and neither the parsing warning
    nor the fallback display is shown. *)
Theorem display_results_some_found (analysis_text section_title : str) :
  startswith analysis_text (lit "Error:") = false ->
  contains (lit "An error occurred during Gemini analysis:") analysis_text = false ->
  In section_title titles ->
  extract_section analysis_text section_title <> None ->
  display_results analysis_text =
    [st_subheader (lit "Analysis Results")] ++
    map (section_expander analysis_text) titles ++
    [raw_response_offer analysis_text] /\
  ~ In parsing_failed_warning (display_results analysis_text) /\
  ~ In (raw_response_fallback analysis_text) (display_results analysis_text).
Proof.
  intros Hs Hc Hin Hfound.
  assert (Heq : display_results analysis_text =
            [st_subheader (lit "Analysis Results")] ++
            map (section_expander analysis_text) titles ++
            [raw_response_offer analysis_text]).
  { rewrite (display_results_passed _ Hs Hc).
    destruct (length _ =? 0) eqn:En.
    - apply Nat.eqb_eq in En. rewrite found_count in En.
      destruct Hfound. unfold titles in Hin. apply in_map_iff in Hin as (e & <- & He).
      apply En, He.
    - destruct analysis_text as [|a t]; [|reflexivity].
      destruct Hfound. apply extract_section_nil. }
  split; [exact Heq|]. rewrite Heq.
  assert (Hexp : forall ev, In ev (map (section_expander analysis_text) titles) ->
            exists t ch, In t titles /\ ev = st_expander t true ch).
  { intros ev Hev. apply in_map_iff in Hev as (t & <- & Ht).
    destruct (display_section_label analysis_text t true) as (ch & Hl & _).
    exists t, ch. split; [exact Ht | exact Hl]. }
  split; intros H; cbn [app] in H; destruct H as [H | H]; try discriminate H;
    apply in_app_or in H as [H | H].
  - destruct (Hexp _ H) as (t & ch & _ & E). discriminate E.
  - destruct H as [H | []]. discriminate H.
  - destruct (Hexp _ H) as (t & ch & Ht & E).
    unfold raw_response_fallback in E. injection E as <- _.
    cbn in Ht. intuition discriminate.
  - destruct H as [H | []]. discriminate H.
Qed.

Lemma display_results_some_found_witness :
  display_results example_response =
    [st_subheader (lit "Analysis Results")] ++
    map (section_expander example_response) titles ++
    [raw_response_offer example_response] /\
  ~ In parsing_failed_warning (display_results example_response) /\
  ~ In (raw_response_fallback example_response) (display_results example_response).
Proof.
  apply (display_results_some_found example_response (lit "Skills to Highlight"));
    [reflexivity | reflexivity | left; reflexivity | vm_compute; discriminate].
Defined.

(** X5. For every answer that does not look like an error the page
    shows, after the title, one expanded expander per section, labelled
    with the four titles in their fixed order whatever the order of the
    sections in the answer; at most two more widgets follow, and none
    when the answer is empty. *)
Theorem display_results_layout (analysis_text : str) :
  startswith analysis_text (lit "Error:") = false ->
  contains (lit "An error occurred during Gemini analysis:") analysis_text = false ->
  exists expanders rest,
    display_results analysis_text =
      [st_subheader (lit "Analysis Results")] ++ expanders ++ rest /\
    Forall2 (fun ev title => exists children, ev = st_expander title true children)
      expanders titles /\
    length rest <= 2 /\
    (analysis_text = [] -> rest = []).
Proof.
  intros Hs Hc. rewrite (display_results_passed _ Hs Hc).
  eexists _, _. split; [reflexivity|]. split.
  - unfold titles. apply Forall2_fmap_l, Forall_Forall2_diag, List.Forall_forall.
    intros t _.
    destruct (display_section_label analysis_text t true) as (ch & Hl & _).
    exists ch. exact Hl.
  - split.
    + destruct (_ && _); [cbn; lia|]. destruct (truthy analysis_text); cbn; lia.
    + intros ->. reflexivity.
Qed.

Lemma display_results_layout_witness :
  exists expanders rest,
    display_results [] =
      [st_subheader (lit "Analysis Results")] ++ expanders ++ rest /\
    Forall2 (fun ev title => exists children, ev = st_expander title true children)
      expanders titles /\
    length rest <= 2 /\
    (@nil ascii = [] -> rest = []).
Proof.
  apply (display_results_layout []); reflexivity.
Defined.

(** ** More about [fetch_github_repos] *)

Section FetchMore.

Variable w : world.

(** What holds of every event of two computations holds of every event
    of their sequence. *)
Lemma bind_log {A B} (P : event -> Prop) (m : M A) (f : A -> M B) :
  Forall P (snd m) -> (forall a, Forall P (snd (f a))) ->
  Forall P (snd (bind m f)).
Proof.
  intros Hm Hf. unfold bind. destruct m as [[e|a] l]; [exact Hm|].
  specialize (Hf a). destruct (f a) as [r l']. cbn [snd] in *.
  apply Forall_app. split; assumption.
Qed.

Lemma handle_log {A} (P : event -> Prop) (m : M A) (h : exn -> A * list event) :
  Forall P (snd m) -> (forall e, Forall P (snd (h e))) ->
  Forall P (snd (handle m h)).
Proof.
  intros Hm Hh. unfold handle. destruct m as [[e|a] l]; [|exact Hm].
  specialize (Hh e). destruct (h e) as [a l']. cbn [snd] in *.
  apply Forall_app. split; assumption.
Qed.

(** The loop shows nothing but the note that it stopped. *)
Lemma fetch_loop_log (P : event -> Prop) (repos : PaginatedList) :
  P stopped_note ->
  forall repo_data processed_count,
    Forall P (snd (fetch_loop w repos repo_data processed_count)).
Proof.
  intros HP. induction repos as [|repo more IH|e]; intros acc n; cbn [fetch_loop].
  - constructor.
  - destruct (fork repo); cbn [negb]; [apply IH|].
    destruct (max_repos_to_process <=? n).
    + cbn. constructor; [exact HP | constructor].
    + rewrite read_readme_caught, bind_ret_l. apply IH.
  - constructor.
Qed.

(** A listing that raises before the loop stops makes the loop raise. *)
Lemma fetch_loop_raises (repos : list Repository) (e : exn) :
  forall repo_data processed_count,
    processed_count + length (non_forked repos) <= max_repos_to_process ->
    fetch_loop w (prepend repos (Raise e)) repo_data processed_count = (inl e, []).
Proof.
  induction repos as [|repo repos IH]; intros acc n Hn; cbn [prepend fold_right fetch_loop].
  - reflexivity.
  - fold (prepend repos (Raise e)). rewrite non_forked_cons in Hn.
    destruct (fork repo); cbn [negb]; [apply IH, Hn|].
    cbn [length] in Hn.
    destruct (max_repos_to_process <=? n) eqn:Em; [apply Nat.leb_le in Em; lia|].
    rewrite read_readme_caught, bind_ret_l. apply IH. lia.
Qed.

(** The fifty-first repository of the user's own stops the loop. *)
Lemma fetch_loop_stops (repos : list Repository) (repo : Repository)
    (more : PaginatedList) :
  fork repo = false ->
  forall repo_data processed_count,
    processed_count + length (non_forked repos) = max_repos_to_process ->
    fetch_loop w (prepend repos (Yield repo more)) repo_data processed_count =
      (inr (repo_data ++ map (summarize w) (non_forked repos), max_repos_to_process),
       [stopped_note]).
Proof.
  intros Hf.
  induction repos as [|r repos IH]; intros acc n Hn; cbn [prepend fold_right fetch_loop].
  - cbn in Hn. rewrite Nat.add_0_r in Hn. subst n. rewrite Hf. cbn [negb].
    rewrite Nat.leb_refl. cbn. rewrite app_nil_r. reflexivity.
  - fold (prepend repos (Yield repo more)). rewrite non_forked_cons in Hn |- *.
    destruct (fork r); cbn [negb]; [apply IH, Hn|].
    cbn [length] in Hn.
    destruct (max_repos_to_process <=? n) eqn:Em; [apply Nat.leb_le in Em; lia|].
    rewrite read_readme_caught, bind_ret_l, IH by lia.
    rewrite make_repo_info_summarize. cbn [map]. rewrite <- app_assoc. reflexivity.
Qed.

Variable username : str.
Variable github_token_from_input : option str.

#[local] Abbreviation cred := (credential w github_token_from_input).
#[local] Abbreviation github_token :=
  (resolve_github_token w github_token_from_input).

(** What the call does once its client is there. *)
Lemma fetch_after_client :
  authenticated w github_token_from_input ->
  fetch_github_repos w username github_token_from_input =
    handle
      (let '(r, l') :=
         (let* user := lift (get_user (github w cred) username) in
          let* out := fetch_loop w (get_repos user (lit "updated") (lit "desc")) [] 0 in
          note_if_none username (fst out) (snd out) ;; ret (fst out))
       in (r, [new_Github cred] ++ l'))
      (fetch_failed username github_token).
Proof.
  intros Ha. unfold fetch_github_repos, fetch_body. cbv zeta.
  rewrite (make_client_authenticated w github_token_from_input Ha).
  reflexivity.
Qed.

(** Without a token the call ends at the warning. *)
Lemma fetch_no_token :
  cred = None ->
  fetch_github_repos w username github_token_from_input =
    ([], [new_Github None; icon_failure w]).
Proof.
  intros Hc. unfold fetch_github_repos, fetch_body. cbv zeta.
  rewrite (make_client_no_token w github_token_from_input Hc). reflexivity.
Qed.

End FetchMore.

(** X6. All or nothing: when the call has a token and the listing
    raises before a fifty-first repository of the user's own is met, the
    summaries collected so far are dropped; the call returns the empty
    list and shows the messages of the handler of that exception. *)
Theorem fetch_listing_raises (w : world) (username : str)
    (github_token_from_input : option str) (user : NamedUser)
    (repos : list Repository) (e : exn) :
  authenticated w github_token_from_input ->
  get_user (github w (credential w github_token_from_input)) username = inr user ->
  get_repos user (lit "updated") (lit "desc") = prepend repos (Raise e) ->
  length (non_forked repos) <= 50 ->
  exists log,
    fetch_github_repos w username github_token_from_input =
      ([], log ++ snd (fetch_failed username
                         (resolve_github_token w github_token_from_input) e)) /\
    no_error log /\
    exists msg, In (st_error msg)
                  (snd (fetch_github_repos w username github_token_from_input)).
Proof.
  intros Ha Hu Hrepos Hlen.
  rewrite (fetch_after_client w username github_token_from_input Ha), Hu.
  cbn [bind lift]. rewrite Hrepos.
  rewrite fetch_loop_raises by (unfold max_repos_to_process; cbn; lia).
  cbn [bind handle app].
  pose proof (fetch_failed_data username
                (resolve_github_token w github_token_from_input) e) as Hd.
  destruct (fetch_failed _ _ e) as [d l] eqn:Ef. cbn [fst snd] in *. subst d.
  exists [new_Github (credential w github_token_from_input)].
  split; [reflexivity|]. split.
  - intros msg [H | []]. discriminate H.
  - assert (exists msg, In (st_error msg) l) as [msg Hmsg].
    { destruct e; cbn in Ef; injection Ef as <-; eexists; left; reflexivity. }
    exists msg. cbn [snd]. right. exact Hmsg.
Qed.

Lemma fetch_listing_raises_witness :
  exists log,
    fetch_github_repos (listing_world five_repos (Raise rate_limited))
      (lit "octocat") (Some (lit "token")) =
      ([], log ++ snd (fetch_failed (lit "octocat")
                         (resolve_github_token
                            (listing_world five_repos (Raise rate_limited))
                            (Some (lit "token")))
                         rate_limited)) /\
    no_error log /\
    exists msg, In (st_error msg)
      (snd (fetch_github_repos (listing_world five_repos (Raise rate_limited))
              (lit "octocat") (Some (lit "token")))).
Proof.
  apply (fetch_listing_raises (listing_world five_repos (Raise rate_limited))
           (lit "octocat") (Some (lit "token"))
           {| get_repos := fun _ _ => prepend five_repos (Raise rate_limited) |}
           five_repos rate_limited).
  - exists (lit "token"). reflexivity.
  - reflexivity.
  - reflexivity.
  - cbn. lia.
Defined.

(** X7. When the call has a token, the listing is not read past the
    fifty-first repository of the user's own: the call returns the
    summaries of the first fifty, shows the note that it stopped and no
    error, whatever the listing would have yielded or raised after that
    repository. *)
Theorem fetch_stops_at_cap (w : world) (username : str)
    (github_token_from_input : option str) (user : NamedUser)
    (repos : list Repository) (repo : Repository) (more : PaginatedList) :
  authenticated w github_token_from_input ->
  get_user (github w (credential w github_token_from_input)) username = inr user ->
  get_repos user (lit "updated") (lit "desc") = prepend repos (Yield repo more) ->
  length (non_forked repos) = 50 ->
  fork repo = false ->
  exists log,
    fetch_github_repos w username github_token_from_input =
      (map (summarize w) (non_forked repos), log) /\
    In stopped_note log /\
    no_error log.
Proof.
  intros Ha Hu Hrepos Hlen Hfork.
  rewrite (fetch_after_client w username github_token_from_input Ha), Hu.
  cbn [bind lift]. rewrite Hrepos.
  rewrite (fetch_loop_stops w repos repo more Hfork [] 0)
    by (rewrite Hlen; reflexivity).
  cbn [bind fst snd app]. unfold note_if_none.
  replace (max_repos_to_process =? 0) with false by reflexivity.
  rewrite andb_false_r. cbn [ret handle app].
  eexists. split; [reflexivity|]. split.
  - right. left. reflexivity.
  - intros msg [H | [H | []]]; discriminate H.
Qed.

Lemma fetch_stops_at_cap_witness :
  exists log,
    fetch_github_repos
      (listing_world fifty_repos
         (Yield (repo false "one-more" None (inr (lit "readme")))
            (Raise rate_limited)))
      (lit "octocat") (Some (lit "token")) =
      (map (summarize
              (listing_world fifty_repos
                 (Yield (repo false "one-more" None (inr (lit "readme")))
                    (Raise rate_limited))))
           (non_forked fifty_repos), log) /\
    In stopped_note log /\
    no_error log.
Proof.
  apply (fetch_stops_at_cap
           (listing_world fifty_repos
              (Yield (repo false "one-more" None (inr (lit "readme")))
                 (Raise rate_limited)))
           (lit "octocat") (Some (lit "token"))
           {| get_repos := fun _ _ =>
                prepend fifty_repos
                  (Yield (repo false "one-more" None (inr (lit "readme")))
                     (Raise rate_limited)) |}
           fifty_repos (repo false "one-more" None (inr (lit "readme")))
           (Raise rate_limited)).
  - exists (lit "token"). reflexivity.
  - reflexivity.
  - reflexivity.
  - reflexivity.
  - reflexivity.
Defined.

(** X8. When the call has a token and GitHub refuses the user lookup
    because the rate limit is exceeded, the call returns the empty list
    and, after making its client, shows the rate-limit error and nothing
    else. *)
Theorem fetch_rate_limited (w : world) (username : str)
    (github_token_from_input : option str) (message : str) :
  authenticated w github_token_from_input ->
  get_user (github w (credential w github_token_from_input)) username
    = inl (RateLimitExceededException message) ->
  fetch_github_repos w username github_token_from_input =
    ([], [new_Github (credential w github_token_from_input);
          st_error (lit "GitHub API Rate Limit Exceeded. Please wait a while before trying again.")]).
Proof.
  intros Ha Hu.
  rewrite (fetch_after_client w username github_token_from_input Ha), Hu.
  cbn [bind lift handle fetch_failed app].
  rewrite (truthy_credential w github_token_from_input).
  destruct Ha as [token ->]. reflexivity.
Qed.

Lemma fetch_rate_limited_witness :
  fetch_github_repos rate_limited_world (lit "octocat") (Some (lit "token")) =
    ([], [new_Github (credential rate_limited_world (Some (lit "token")));
          st_error (lit "GitHub API Rate Limit Exceeded. Please wait a while before trying again.")]).
Proof.
  apply (fetch_rate_limited rate_limited_world (lit "octocat")
           (Some (lit "token")) (lit "403")).
  - exists (lit "token"). reflexivity.
  - reflexivity.
Defined.

(** X9. Without a token the call never reaches GitHub: it makes its
    client, the warning of line 56 raises on its icon, and the call
    returns the empty list with the message of the last handler, whatever
    the user name and whatever GitHub holds. In no world does a call show
    that warning, the caption with the rate limit, or the advice to add a
    token. *)
Theorem fetch_without_token (w : world) (username : str)
    (github_token_from_input : option str) :
  (credential w github_token_from_input = None ->
   fetch_github_repos w username github_token_from_input =
     ([], [new_Github None; icon_failure w])) /\
  Forall (fun ev => ev <> no_token_warning /\ ~ is_caption ev /\ ev <> token_advice)
    (snd (fetch_github_repos w username github_token_from_input)).
Proof.
  split; [apply fetch_no_token|].
  assert (Hnot : forall ev, (forall body, ev <> st_sidebar_warning body) ->
            (forall body, ev <> st_sidebar_caption body) ->
            ev <> token_advice ->
            ev <> no_token_warning /\ ~ is_caption ev /\ ev <> token_advice).
  { intros ev H1 H2 H3. split; [apply H1|]. split; [|exact H3].
    intros [body ->]. exact (H2 _ eq_refl). }
  assert (Herr : forall body a, a <> "C"%char ->
            st_error (a :: body) <> no_token_warning /\
            ~ is_caption (st_error (a :: body)) /\
            st_error (a :: body) <> token_advice).
  { intros body a Ha. apply Hnot; try discriminate.
    intros H. injection H as H _. exact (Ha H). }
  destruct (credential w github_token_from_input) as [token|] eqn:Ec.
  - rewrite (fetch_after_client w username github_token_from_input)
      by (exists token; exact Ec).
    apply handle_log.
    + match goal with
      | |- Forall _ (snd (let '(r, l') := ?m in _)) => destruct m as [r l'] eqn:E
      end.
      assert (Hl : Forall (fun ev => ev <> no_token_warning /\ ~ is_caption ev /\
                                     ev <> token_advice) l').
      { change l' with (snd (r, l')). rewrite <- E.
        apply bind_log; [constructor|]. intros user.
        apply bind_log; [apply fetch_loop_log; apply Hnot; discriminate|].
        intros out. apply bind_log; [|intros; constructor].
        unfold note_if_none. destruct (_ && _); cbn; [|constructor].
        constructor; [|constructor]. split; [|split].
        - intros H. injection H as H. discriminate H.
        - intros [body H]. discriminate H.
        - discriminate. }
      cbn [snd app]. constructor; [apply Hnot; discriminate | exact Hl].
    + intros e. pose proof (truthy_credential w github_token_from_input) as Ht.
      rewrite Ec in Ht.
      destruct e; cbn [fetch_failed snd]; try rewrite Ht; cbn [negb app];
        repeat constructor; try (intros [body H]; discriminate H);
        try discriminate.
  - rewrite (fetch_no_token w username github_token_from_input Ec). cbn [snd].
    constructor; [apply Hnot; discriminate|].
    constructor; [|constructor]. apply Herr. discriminate.
Qed.

Lemma fetch_without_token_witness :
  fetch_github_repos quiet_world (lit "octocat") None =
    ([], [new_Github None; icon_failure quiet_world]).
Proof.
  apply (proj1 (fetch_without_token quiet_world (lit "octocat") None)).
  reflexivity.
Defined.

(** ** The page script *)

Section Upload.

Variable decode : str -> exn + str.

(** X10. The upload block keeps the session consistent: if the name of
    the file is in the session exactly when its content is, the same holds
    after the block, whether a file is there or not and whether it can be
    decoded or not. *)
Theorem process_upload_consistent (uploaded_file : option (str * str))
    (s : gmap string str) :
  upload_consistent s ->
  upload_consistent (fst (process_upload decode uploaded_file s)).
Proof.
  unfold upload_consistent, process_upload. intros Hs.
  destruct uploaded_file as [[file_name bytes_data]|].
  - destruct (negb _); [|exact Hs].
    destruct (decode bytes_data) as [e|content]; cbn [fst].
    + rewrite lookup_delete_eq, lookup_delete_ne, lookup_delete_eq by done.
      split; intros [x Hx]; discriminate Hx.
    + rewrite lookup_insert_eq, lookup_insert_ne, lookup_insert_eq by done.
      split; intros _; eexists; reflexivity.
  - destruct (s !! "uploaded_resume_filename"%string) eqn:E; cbn [fst].
    + rewrite lookup_delete_eq, lookup_delete_ne, lookup_delete_eq by done.
      split; intros [x Hx]; discriminate Hx.
    + rewrite E. exact Hs.
Qed.

(** X11. Uploading and reading back. A new file that decodes is stored
    and [get_resume_content] returns its text as an upload, unless the
    text is empty, which counts as no resume. A file with the name already
    in the session is not read again, whatever its bytes. Once the
    uploader is cleared there is no resume. *)
Theorem upload_then_read (file_name bytes_data content : str)
    (s : gmap string str) :
  (s !! "uploaded_resume_filename"%string <> Some file_name ->
   decode bytes_data = inr content ->
   get_resume_content (fst (process_upload decode (Some (file_name, bytes_data)) s))
   = if truthy content then (content, lit "upload") else ([], lit "none")) /\
  (s !! "uploaded_resume_filename"%string = Some file_name ->
   process_upload decode (Some (file_name, bytes_data)) s = (s, [])) /\
  (upload_consistent s ->
   get_resume_content (fst (process_upload decode None s)) = ([], lit "none")).
Proof.
  unfold process_upload, get_resume_content. unfold str in *. repeat split.
  - intros Hname Hdec.
    rewrite bool_decide_eq_false_2 by congruence. cbn [negb]. rewrite Hdec.
    cbn [fst]. rewrite !lookup_insert_ne, !lookup_insert_eq by done.
    cbn. destruct content; reflexivity.
  - intros Hname. rewrite bool_decide_eq_true_2 by congruence. reflexivity.
  - intros Hs. destruct (s !! "uploaded_resume_filename"%string) eqn:E; cbn [fst].
    + rewrite lookup_delete_ne, lookup_delete_eq by done. reflexivity.
    + destruct (s !! "uploaded_resume_content"%string) eqn:Ec; [|reflexivity].
      destruct (proj2 Hs) as [x Hx]; [eexists; exact Ec | unfold str in Hx; congruence].
Qed.

End Upload.

Lemma process_upload_consistent_witness :
  upload_consistent
    (fst (process_upload (fun b => inr b) (Some (lit "cv.txt", lit "Python, Rocq")) ∅)).
Proof.
  apply (process_upload_consistent (fun b => inr b)
           (Some (lit "cv.txt", lit "Python, Rocq")) ∅).
  split; intros [x Hx]; discriminate Hx.
Defined.

Lemma upload_then_read_witness :
  get_resume_content
    (fst (process_upload (fun b => inr b) (Some (lit "cv.txt", lit "Python, Rocq")) ∅))
  = (lit "Python, Rocq", lit "upload").
Proof.
  apply (proj1 (upload_then_read (fun b => inr b) (lit "cv.txt") (lit "Python, Rocq")
                  (lit "Python, Rocq") ∅)).
  - discriminate.
  - reflexivity.
Defined.

Section Checks.

Variable s : gmap string str.
Variables job_role_input company_name_input job_description_input : str.

(** [get_resume_content] never reports an error, so the check of the
    resume has two outcomes. *)
Lemma require_resume_cases (state : bool * list page_event) :
  require_resume s state =
    if truthy_opt (s !! "uploaded_resume_content"%string) then
      (fst state,
       snd state ++
       [st_info (lit "Using uploaded resume: '" ++
                 default (lit "None") (s !! "uploaded_resume_filename"%string) ++
                 lit "' for analysis.")])
    else
      (false,
       snd state ++
       [shown (st_error (lit "No resume found. Please upload a 'resume.txt' file."))]).
Proof.
  unfold require_resume, get_resume_content. unfold str in *.
  destruct (s !! "uploaded_resume_content"%string) as [[|c t]|]; reflexivity.
Qed.

Lemma submit_checks_cases :
  submit_checks s job_role_input company_name_input job_description_input =
    (forallb id (required_inputs s job_role_input company_name_input
                   job_description_input),
     (if truthy_opt (s !! "gemini_api_key"%string) then []
      else [shown (st_error (lit "Please enter your Gemini API Key in the sidebar."))]) ++
     (if truthy_opt (s !! "uploaded_resume_content"%string) then
        [st_info (lit "Using uploaded resume: '" ++
                  default (lit "None") (s !! "uploaded_resume_filename"%string) ++
                  lit "' for analysis.")]
      else [shown (st_error (lit "No resume found. Please upload a 'resume.txt' file."))]) ++
     (if truthy_opt (s !! "github_username"%string) then []
      else [shown (st_warning (lit "GitHub Username is not entered. Analysis will proceed without GitHub project data."))]) ++
     (if truthy job_role_input then []
      else [shown (st_error (lit "Please enter the Job Position/Title."))]) ++
     (if truthy company_name_input then []
      else [shown (st_error (lit "Please enter the Company Name."))]) ++
     (if truthy job_description_input then []
      else [shown (st_error (lit "Please enter a Job Description."))])).
Proof.
  unfold submit_checks, required_inputs, warn_username. cbv zeta.
  rewrite require_resume_cases. unfold require.
  repeat match goal with
         | |- context [truthy_opt ?x] => destruct (truthy_opt x)
         | |- context [truthy ?x] => destruct (truthy x)
         end; reflexivity.
Qed.

End Checks.

(** X12. The checks of "Analyze Job Match" are itemised: the inputs
    are accepted exactly when the API key, the resume, the role, the
    company and the description are all there; every one of the five that
    is missing gets an error message of its own, and there are as many
    error messages as missing inputs. A missing GitHub user name does not
    count. *)
Theorem submit_checks_itemised (s : gmap string str)
    (job_role_input company_name_input job_description_input : str) :
  let required :=
    required_inputs s job_role_input company_name_input job_description_input in
  let checks :=
    submit_checks s job_role_input company_name_input job_description_input in
  fst checks = forallb id required /\
  length (List.filter is_error (snd checks)) = length (List.filter negb required) /\
  (truthy_opt (s !! "gemini_api_key"%string) = false ->
   In (shown (st_error (lit "Please enter your Gemini API Key in the sidebar.")))
      (snd checks)) /\
  (truthy_opt (s !! "uploaded_resume_content"%string) = false ->
   In (shown (st_error (lit "No resume found. Please upload a 'resume.txt' file.")))
      (snd checks)) /\
  (truthy job_role_input = false ->
   In (shown (st_error (lit "Please enter the Job Position/Title."))) (snd checks)) /\
  (truthy company_name_input = false ->
   In (shown (st_error (lit "Please enter the Company Name."))) (snd checks)) /\
  (truthy job_description_input = false ->
   In (shown (st_error (lit "Please enter a Job Description."))) (snd checks)).
Proof.
  cbv zeta. rewrite submit_checks_cases. cbn [fst snd]. unfold required_inputs.
  split; [reflexivity|]. split.
  - repeat match goal with
           | |- context [truthy_opt ?x] => destruct (truthy_opt x)
           | |- context [truthy ?x] => destruct (truthy x)
           end; reflexivity.
  - repeat split; intros H; unfold str in *; rewrite H;
      repeat (apply in_or_app; (left; left; reflexivity) || right);
      try (left; reflexivity).
Qed.

Lemma submit_checks_itemised_witness :
  In (shown (st_error (lit "Please enter the Company Name.")))
     (snd (submit_checks ∅ (lit "Engineer") [] (lit "Build things"))).
Proof.
  apply (proj1 (proj2 (proj2 (proj2 (proj2 (proj2
           (submit_checks_itemised ∅ (lit "Engineer") [] (lit "Build things")))))))).
  reflexivity.
Defined.

Section Submit.

Variable pw : page_world.
Variables job_role_input company_name_input job_description_input : str.

#[local] Abbreviation s0 := (session_state (base pw)).
#[local] Abbreviation s1 :=
  (<["job_description"%string := job_description_input]>
     (<["company_name"%string := company_name_input]>
        (<["job_role"%string := job_role_input]> (session_state (base pw))))).

Lemma required_inputs_persisted :
  required_inputs s1 job_role_input company_name_input job_description_input =
  required_inputs s0 job_role_input company_name_input job_description_input.
Proof.
  unfold required_inputs. unfold str in *.
  rewrite !lookup_insert_ne by done. reflexivity.
Qed.

Lemma on_submit_session :
  fst (on_submit pw job_role_input company_name_input job_description_input) = s1.
Proof.
  unfold on_submit. cbv zeta.
  destruct (submit_checks _ _ _ _) as [[] log]; [|reflexivity].
  destruct (fetch_step pw _) as [d l]. destruct (analyze_with_gemini _ _ _ _ _ _).
  reflexivity.
Qed.

Lemma submit_checks_quiet :
  Forall (fun pe => ~ is_request pe)
    (snd (submit_checks s1 job_role_input company_name_input job_description_input)).
Proof.
  rewrite submit_checks_cases. cbn [snd].
  repeat (apply Forall_app; split);
    repeat match goal with
           | |- context [truthy_opt ?x] => destruct (truthy_opt x)
           | |- context [truthy ?x] => destruct (truthy x)
           end; repeat constructor; intros [].
Qed.

End Submit.

Lemma ask_gemini_log_head (w : world) (p : prompt) :
  truthy_opt (session_state w !! "gemini_api_key"%string) = true ->
  exists log,
    snd (ask_gemini w p) =
      genai_configure (default [] (session_state w !! "gemini_api_key"%string)) ::
      generate_content_call model_name p :: log.
Proof.
  intros Hk. unfold ask_gemini. unfold str in *. rewrite Hk. cbn [negb].
  destruct (generate_content w p) as [e|t]; cbn.
  - destruct (contains _ _); [eexists; reflexivity|].
    destruct (contains _ _); [eexists; reflexivity|].
    destruct (contains _ _); eexists; reflexivity.
  - eexists. reflexivity.
Qed.

(** X13. When one of the five required inputs is missing, "Analyze
    Job Match" stops after its checks: the last thing it shows is the
    warning that the analysis cannot proceed, and it reaches neither GitHub
    nor the generative service. The three inputs of the form are kept in
    the session all the same. *)
Theorem on_submit_blocked (pw : page_world)
    (job_role_input company_name_input job_description_input : str) :
  forallb id (required_inputs (session_state (base pw)) job_role_input
                company_name_input job_description_input) = false ->
  let result :=
    on_submit pw job_role_input company_name_input job_description_input in
  (exists log,
     snd result = log ++
       [shown (st_warning (lit "Analysis cannot proceed due to missing inputs or errors. Please check the messages above."))]) /\
  Forall (fun pe => ~ is_request pe) (snd result) /\
  fst result !! "job_role"%string = Some job_role_input /\
  fst result !! "company_name"%string = Some company_name_input /\
  fst result !! "job_description"%string = Some job_description_input.
Proof.
  intros Hreq. cbv zeta. rewrite on_submit_session.
  pose proof (submit_checks_quiet pw job_role_input company_name_input
                job_description_input) as Hquiet.
  unfold on_submit. cbv zeta.
  rewrite submit_checks_cases in *. rewrite required_inputs_persisted, Hreq.
  cbn [fst snd] in *. split; [eexists; reflexivity|]. split.
  - apply Forall_app. split; [exact Hquiet|]. repeat constructor. intros [].
  - unfold str.
    repeat split;
      [rewrite !lookup_insert_ne by done | rewrite lookup_insert_ne by done | ];
      apply lookup_insert_eq.
Qed.

Lemma on_submit_blocked_witness :
  Forall (fun pe => ~ is_request pe)
    (snd (on_submit (fresh_page quiet_world)
            (lit "Engineer") (lit "Acme") (lit "Build things"))).
Proof.
  apply (on_submit_blocked (fresh_page quiet_world)
           (lit "Engineer") (lit "Acme") (lit "Build things")).
  reflexivity.
Defined.

(** X14. When the five required inputs are there, "Analyze Job Match"
    asks the model once, with a prompt made of the uploaded resume, the
    repositories of the fetch step and the role, company and description
    of the form, each in its place; the page ends with [display_results]
    of the answer. *)
Theorem on_submit_proceeds (pw : page_world)
    (job_role_input company_name_input job_description_input : str) :
  forallb id (required_inputs (session_state (base pw)) job_role_input
                company_name_input job_description_input) = true ->
  let result :=
    on_submit pw job_role_input company_name_input job_description_input in
  let resume_text :=
    default [] (session_state (base pw) !! "uploaded_resume_content"%string) in
  let github_data := fst (fetch_step pw (fst result)) in
  let answer :=
    fst (analyze_with_gemini (with_session (base pw) (fst result)) github_data
           resume_text job_description_input job_role_input company_name_input) in
  In (shown (generate_content_call model_name
               (analysis_prompt resume_text github_data job_role_input
                  company_name_input job_description_input)))
     (snd result) /\
  exists log, snd result = log ++ map shown (display_results answer).
Proof.
  intros Hreq. cbv zeta. rewrite on_submit_session.
  unfold on_submit. cbv zeta.
  rewrite submit_checks_cases. rewrite required_inputs_persisted, Hreq.
  assert (Hres : fst (get_resume_content
                        (<["job_description"%string := job_description_input]>
                           (<["company_name"%string := company_name_input]>
                              (<["job_role"%string := job_role_input]>
                                 (session_state (base pw))))))
                 = default [] (session_state (base pw) !! "uploaded_resume_content"%string)).
  { unfold get_resume_content. unfold str. rewrite !lookup_insert_ne by done.
    match goal with |- context [truthy_opt ?x] => destruct x as [[|c t]|] end;
      reflexivity. }
  rewrite Hres.
  destruct (fetch_step pw _) as [github_data fetch_log]. cbn [fst].
  assert (Hkey : truthy_opt
            (session_state
               (with_session (base pw)
                  (<["job_description"%string := job_description_input]>
                     (<["company_name"%string := company_name_input]>
                        (<["job_role"%string := job_role_input]>
                           (session_state (base pw))))))
             !! "gemini_api_key"%string) = true).
  { cbn [with_session session_state]. unfold str. rewrite !lookup_insert_ne by done.
    unfold required_inputs in Hreq. cbn [forallb id] in Hreq.
    apply andb_true_iff in Hreq as [Hk _]. exact Hk. }
  unfold analyze_with_gemini.
  destruct (ask_gemini_log_head _
              (analysis_prompt
                 (default [] (session_state (base pw) !! "uploaded_resume_content"%string))
                 github_data job_role_input company_name_input job_description_input)
              Hkey) as [l Hl].
  destruct (ask_gemini (with_session _ _) (analysis_prompt _ _ _ _ _))
    as [answer request_log].
  cbn [fst snd] in *. subst request_log. split.
  - do 4 (apply in_or_app; right). apply in_or_app. left.
    cbn [map]. right. left. reflexivity.
  - eexists. rewrite !app_assoc. reflexivity.
Qed.


Lemma on_submit_proceeds_witness :
  let result :=
    on_submit (ready_page (lit "octocat") (inr example_response))
      (lit "Engineer") (lit "Acme") (lit "Build things") in
  let resume_text :=
    default [] (session_state (base (ready_page (lit "octocat") (inr example_response)))
                !! "uploaded_resume_content"%string) in
  let github_data :=
    fst (fetch_step (ready_page (lit "octocat") (inr example_response)) (fst result)) in
  let answer :=
    fst (analyze_with_gemini
           (with_session (base (ready_page (lit "octocat") (inr example_response)))
              (fst result))
           github_data resume_text (lit "Build things") (lit "Engineer") (lit "Acme")) in
  In (shown (generate_content_call model_name
               (analysis_prompt resume_text github_data (lit "Engineer")
                  (lit "Acme") (lit "Build things"))))
     (snd result) /\
  exists log, snd result = log ++ map shown (display_results answer).
Proof.
  apply (on_submit_proceeds (ready_page (lit "octocat") (inr example_response))
           (lit "Engineer") (lit "Acme") (lit "Build things")).
  vm_compute. reflexivity.
Defined.

Lemma ask_gemini_ext (w1 w2 : world) (p : prompt) :
  session_state w1 = session_state w2 ->
  generate_content w1 = generate_content w2 ->
  ask_gemini w1 p = ask_gemini w2 p.
Proof. intros Hs Hg. unfold ask_gemini. rewrite Hs, Hg. reflexivity. Qed.

(** X15. Without a GitHub user name in the session GitHub plays no
    part in "Analyze Job Match": the page and the session it leaves are
    the same whatever GitHub, the secret store, the environment and the
    cache hold, and the fetch step hands an empty list of repositories to
    the analysis. *)
Theorem on_submit_without_username (pw pw' : page_world)
    (job_role_input company_name_input job_description_input : str) :
  truthy_opt (session_state (base pw) !! "github_username"%string) = false ->
  session_state (base pw') = session_state (base pw) ->
  generate_content (base pw') = generate_content (base pw) ->
  on_submit pw' job_role_input company_name_input job_description_input =
  on_submit pw job_role_input company_name_input job_description_input /\
  fst (fetch_step pw
         (fst (on_submit pw job_role_input company_name_input
                 job_description_input))) = [].
Proof.
  intros Hu Hs Hg.
  assert (Hstep : forall q : page_world,
            session_state (base q) = session_state (base pw) ->
            fetch_step q
              (<["job_description"%string := job_description_input]>
                 (<["company_name"%string := company_name_input]>
                    (<["job_role"%string := job_role_input]>
                       (session_state (base pw))))) =
            ([], [status_text (lit "Skipping GitHub repository fetch (no username provided).");
                  st_progress 25 (lit "Skipping GitHub repository fetch...")])).
  { intros q _. unfold fetch_step. cbv zeta. unfold str in *.
    rewrite !lookup_insert_ne by done. rewrite Hu. reflexivity. }
  split.
  - unfold on_submit. cbv zeta. rewrite Hs.
    destruct (submit_checks _ _ _ _) as [[] log]; [|reflexivity].
    rewrite (Hstep pw' Hs), (Hstep pw eq_refl).
    unfold analyze_with_gemini.
    rewrite (ask_gemini_ext
               (with_session (base pw') _) (with_session (base pw) _) _
               eq_refl Hg).
    reflexivity.
  - rewrite on_submit_session, (Hstep pw eq_refl). reflexivity.
Qed.

Lemma on_submit_without_username_witness :
  on_submit {| base := with_session (example_world (Some (lit "t")) None None (inr plain_response))
                         (ready_session []);
               cache_data := fun _ _ => Some ([], []);
               github_retry := example_github |}
    (lit "Engineer") (lit "Acme") (lit "Build things") =
  on_submit (ready_page [] (inr plain_response))
    (lit "Engineer") (lit "Acme") (lit "Build things") /\
  fst (fetch_step (ready_page [] (inr plain_response))
         (fst (on_submit (ready_page [] (inr plain_response))
                 (lit "Engineer") (lit "Acme") (lit "Build things")))) = [].
Proof.
  apply (on_submit_without_username (ready_page [] (inr plain_response))
           {| base := with_session (example_world (Some (lit "t")) None None (inr plain_response))
                        (ready_session []);
              cache_data := fun _ _ => Some ([], []);
              github_retry := example_github |}
           (lit "Engineer") (lit "Acme") (lit "Build things"));
    reflexivity.
Defined.

Lemma credential_retry_world (pw : page_world) (token : option str) :
  credential (retry_world pw) token = credential (base pw) token.
Proof. reflexivity. Qed.

(** X16. An empty result is fetched again, and what the page goes on
    with is what GitHub gives the second time. When nothing is cached and
    [fetch_github_repos] returns the empty list, the page calls it once
    more: it shows what the first call showed, the printed note and what
    the second call shows, and keeps the result of the second call.
    Without a token both calls end at the warning of line 56: the same
    error is shown twice and the result is empty, whatever GitHub holds
    at either time. *)
Theorem refetch_on_empty (pw : page_world) (note : list page_event)
    (username : str) (token : option str) :
  cache_data pw username token = None ->
  (fst (fetch_github_repos (base pw) username token) = [] ->
   fetch_or_refetch pw note username token =
     (fst (fetch_github_repos (retry_world pw) username token),
      map shown (snd (fetch_github_repos (base pw) username token)) ++ note ++
      map shown (snd (fetch_github_repos (retry_world pw) username token)))) /\
  (credential (base pw) token = None ->
   fetch_or_refetch pw note username token =
     ([], [shown (new_Github None); shown (icon_failure (base pw))] ++ note ++
          [shown (new_Github None); shown (icon_failure (base pw))])).
Proof.
  intros Hc.
  assert (Hfirst : fst (fetch_github_repos (base pw) username token) = [] ->
            fetch_or_refetch pw note username token =
              (fst (fetch_github_repos (retry_world pw) username token),
               map shown (snd (fetch_github_repos (base pw) username token)) ++ note ++
               map shown (snd (fetch_github_repos (retry_world pw) username token)))).
  { intros He. unfold fetch_or_refetch, cached_fetch_github_repos. rewrite Hc.
    destruct (fetch_github_repos (base pw) username token) as [d l].
    cbn [fst snd] in *. subst d. cbn [truthy_list negb].
    destruct (fetch_github_repos (retry_world pw) username token). reflexivity. }
  split; [exact Hfirst|].
  intros Hn. rewrite Hfirst.
  - rewrite (fetch_no_token (retry_world pw) username token)
      by (rewrite credential_retry_world; exact Hn).
    rewrite (fetch_no_token (base pw) username token Hn). reflexivity.
  - rewrite (fetch_no_token (base pw) username token Hn). reflexivity.
Qed.

Lemma refetch_on_empty_witness :
  fst (fetch_or_refetch late_user_page
         [print_line (lit "using non cached repo data")] (lit "octocat")
         (Some (lit "token"))) =
  map (summarize (retry_world late_user_page)) (non_forked five_repos).
Proof.
  rewrite (proj1 (refetch_on_empty late_user_page
                    [print_line (lit "using non cached repo data")] (lit "octocat")
                    (Some (lit "token")) eq_refl)).
  - vm_compute. reflexivity.
  - vm_compute. reflexivity.
Defined.

(** X17. What the cache holds. A cached list that is not empty is used
    as it is and GitHub is not asked; a cached empty list is passed over
    and the result is that of a fresh call. *)
Theorem cached_result_used (pw : page_world) (note : list page_event)
    (username : str) (token : option str)
    (cached : list repo_info) (replayed : list event) :
  cache_data pw username token = Some (cached, replayed) ->
  (cached <> [] ->
   fetch_or_refetch pw note username token = (cached, map shown replayed)) /\
  (cached = [] ->
   fetch_or_refetch pw note username token =
     (fst (fetch_github_repos (base pw) username token),
      map shown replayed ++ note ++
      map shown (snd (fetch_github_repos (base pw) username token)))).
Proof.
  intros Hc. unfold fetch_or_refetch, cached_fetch_github_repos. rewrite Hc.
  split.
  - intros Hne. destruct cached; [congruence | reflexivity].
  - intros ->. cbn [truthy_list negb].
    destruct (fetch_github_repos (base pw) username token). reflexivity.
Qed.

Lemma cached_result_used_witness :
  fetch_or_refetch
    {| base := quiet_world;
       cache_data := fun _ _ => Some ([RepoInfo (lit "alpha") (lit "First") []], []);
       github_retry := example_github |}
    [] (lit "ghost") None =
  ([RepoInfo (lit "alpha") (lit "First") []], map shown []).
Proof.
  apply (proj1 (cached_result_used
                  {| base := quiet_world;
                     cache_data := fun _ _ =>
                       Some ([RepoInfo (lit "alpha") (lit "First") []], []);
                     github_retry := example_github |}
                  [] (lit "ghost") None
                  [RepoInfo (lit "alpha") (lit "First") []] [] eq_refl)).
  discriminate.
Defined.

Lemma ask_checks_cases (s : gmap string str)
    (job_role_input company_name_input job_description_input : str) :
  fst (ask_checks s job_role_input company_name_input job_description_input) =
    truthy_opt (s !! "question"%string) &&
    forallb id (required_inputs s job_role_input company_name_input
                  job_description_input) /\
  Forall (fun pe => ~ is_request pe)
    (snd (ask_checks s job_role_input company_name_input job_description_input)).
Proof.
  unfold ask_checks, required_inputs, warn_username. cbv zeta.
  rewrite require_resume_cases. unfold require.
  repeat match goal with
         | |- context [truthy_opt ?x] => destruct (truthy_opt x)
         | |- context [truthy ?x] => destruct (truthy x)
         end; (split; [reflexivity|]); cbn; repeat constructor; intros [].
Qed.

Lemma ask_gemini_answer (w : world) (p : prompt) :
  truthy_opt (session_state w !! "gemini_api_key"%string) = true ->
  fst (ask_gemini w p) =
    match generate_content w p with
    | inr answer => answer
    | inl e => lit "An error occurred during Gemini analysis: " ++ exn_str e
    end.
Proof.
  intros Hk. unfold ask_gemini. unfold str in *. rewrite Hk. cbn [negb].
  destruct (generate_content w p) as [e|t]; reflexivity.
Qed.

Section Ask.

Variable pw : page_world.
Variables question_input job_role_input company_name_input
  job_description_input : str.

#[local] Abbreviation s2 :=
  (<["job_description"%string := job_description_input]>
     (<["company_name"%string := company_name_input]>
        (<["job_role"%string := job_role_input]>
           (<["question"%string := question_input]> (session_state (base pw)))))).

Lemma ask_session_checks :
  fst (ask_checks s2 job_role_input company_name_input job_description_input) =
    truthy question_input &&
    forallb id (required_inputs (session_state (base pw)) job_role_input
                  company_name_input job_description_input).
Proof.
  rewrite (proj1 (ask_checks_cases _ _ _ _)). unfold required_inputs.
  unfold str in *.
  repeat (rewrite lookup_insert_ne by done). rewrite lookup_insert_eq.
  repeat (rewrite lookup_insert_ne by done). reflexivity.
Qed.

Lemma on_ask_question_session :
  fst (on_ask_question pw question_input job_role_input company_name_input
         job_description_input) = s2.
Proof.
  unfold on_ask_question. cbv zeta.
  destruct (ask_checks _ _ _ _) as [[] log]; [|reflexivity].
  destruct (fetch_step pw _) as [d l]. destruct (answer_with_gemini _ _ _ _ _ _ _).
  reflexivity.
Qed.

End Ask.

(** X18. "Answer on my Behalf" shows whatever [answer_with_gemini]
    returns. With a question and the five required inputs, the page ends
    with the question as a header and the returned text as markdown; when
    the request fails, that text is the error text, shown as if it were the
    answer. *)
Theorem on_ask_question_shows_answer (pw : page_world)
    (question_input job_role_input company_name_input job_description_input : str) :
  truthy question_input = true ->
  forallb id (required_inputs (session_state (base pw)) job_role_input
                company_name_input job_description_input) = true ->
  let result :=
    on_ask_question pw question_input job_role_input company_name_input
      job_description_input in
  let resume_text :=
    default [] (session_state (base pw) !! "uploaded_resume_content"%string) in
  let github_data := fst (fetch_step pw (fst result)) in
  let shown_text :=
    match generate_content (base pw)
            (answer_prompt resume_text github_data job_role_input
               company_name_input job_description_input question_input) with
    | inr answer => answer
    | inl e => lit "An error occurred during Gemini analysis: " ++ exn_str e
    end in
  exists log,
    snd result = log ++ [st_header question_input; shown (st_markdown shown_text)].
Proof.
  intros Hq Hreq. cbv zeta. rewrite on_ask_question_session.
  pose proof (ask_session_checks pw question_input job_role_input
                company_name_input job_description_input) as Hc.
  rewrite Hq, Hreq in Hc. cbn [andb] in Hc.
  unfold on_ask_question. cbv zeta.
  destruct (ask_checks _ _ _ _) as [valid log]. cbn [fst] in Hc. subst valid.
  assert (Hres : fst (get_resume_content
                        (<["job_description"%string := job_description_input]>
                           (<["company_name"%string := company_name_input]>
                              (<["job_role"%string := job_role_input]>
                                 (<["question"%string := question_input]>
                                    (session_state (base pw)))))))
                 = default [] (session_state (base pw) !! "uploaded_resume_content"%string)).
  { unfold get_resume_content. unfold str. rewrite !lookup_insert_ne by done.
    match goal with |- context [truthy_opt ?x] => destruct x as [[|c t]|] end;
      reflexivity. }
  rewrite Hres.
  destruct (fetch_step pw _) as [github_data fetch_log]. cbn [fst].
  assert (Hkey : truthy_opt
            (session_state
               (with_session (base pw)
                  (<["job_description"%string := job_description_input]>
                     (<["company_name"%string := company_name_input]>
                        (<["job_role"%string := job_role_input]>
                           (<["question"%string := question_input]>
                              (session_state (base pw)))))))
             !! "gemini_api_key"%string) = true).
  { cbn [with_session session_state]. unfold str. rewrite !lookup_insert_ne by done.
    unfold required_inputs in Hreq. cbn [forallb id] in Hreq.
    apply andb_true_iff in Hreq as [Hk _]. exact Hk. }
  unfold answer_with_gemini.
  pose proof (ask_gemini_answer _
                (answer_prompt
                   (default [] (session_state (base pw) !! "uploaded_resume_content"%string))
                   github_data job_role_input company_name_input
                   job_description_input question_input) Hkey) as Ha.
  cbn [with_session generate_content] in Ha.
  destruct (ask_gemini (with_session _ _) (answer_prompt _ _ _ _ _ _))
    as [answer request_log].
  cbn [fst snd] in *. subst answer.
  eexists. rewrite !app_assoc. reflexivity.
Qed.

Lemma on_ask_question_shows_answer_witness :
  let pw := ready_page [] (inl (Exception (lit "ValueError") (lit "blocked"))) in
  let result :=
    on_ask_question pw (lit "Why you?") (lit "Engineer") (lit "Acme")
      (lit "Build things") in
  let resume_text :=
    default [] (session_state (base pw) !! "uploaded_resume_content"%string) in
  let github_data := fst (fetch_step pw (fst result)) in
  let shown_text :=
    match generate_content (base pw)
            (answer_prompt resume_text github_data (lit "Engineer")
               (lit "Acme") (lit "Build things") (lit "Why you?")) with
    | inr answer => answer
    | inl e => lit "An error occurred during Gemini analysis: " ++ exn_str e
    end in
  exists log,
    snd result = log ++ [st_header (lit "Why you?"); shown (st_markdown shown_text)].
Proof.
  apply (on_ask_question_shows_answer
           (ready_page [] (inl (Exception (lit "ValueError") (lit "blocked"))))
           (lit "Why you?") (lit "Engineer") (lit "Acme") (lit "Build things"));
    vm_compute; reflexivity.
Defined.

(** X19. "Answer on my Behalf" without a question, or without one of
    the five required inputs, shows its checks and nothing more: it reaches
    neither GitHub nor the generative service, and, unlike "Analyze Job
    Match", it ends without a closing warning. *)
Theorem on_ask_question_blocked (pw : page_world)
    (question_input job_role_input company_name_input job_description_input : str) :
  truthy question_input &&
  forallb id (required_inputs (session_state (base pw)) job_role_input
                company_name_input job_description_input) = false ->
  let result :=
    on_ask_question pw question_input job_role_input company_name_input
      job_description_input in
  snd result =
    snd (ask_checks (fst result) job_role_input company_name_input
           job_description_input) /\
  Forall (fun pe => ~ is_request pe) (snd result) /\
  (truthy question_input = false ->
   In (shown (st_error (lit "Please enter your Question."))) (snd result)).
Proof.
  intros Hreq. cbv zeta. rewrite on_ask_question_session.
  pose proof (ask_session_checks pw question_input job_role_input
                company_name_input job_description_input) as Hc.
  rewrite Hreq in Hc.
  pose proof (proj2 (ask_checks_cases
                (<["job_description"%string := job_description_input]>
                   (<["company_name"%string := company_name_input]>
                      (<["job_role"%string := job_role_input]>
                         (<["question"%string := question_input]>
                            (session_state (base pw))))))
                job_role_input company_name_input job_description_input)) as Hquiet.
  assert (Hq : truthy question_input = false ->
            In (shown (st_error (lit "Please enter your Question.")))
               (snd (ask_checks
                       (<["job_description"%string := job_description_input]>
                          (<["company_name"%string := company_name_input]>
                             (<["job_role"%string := job_role_input]>
                                (<["question"%string := question_input]>
                                   (session_state (base pw))))))
                       job_role_input company_name_input job_description_input))).
  { intros Hq. unfold ask_checks, warn_username. cbv zeta.
    rewrite require_resume_cases. unfold require. unfold str.
    repeat (rewrite lookup_insert_ne by done). rewrite lookup_insert_eq.
    cbn [truthy_opt]. rewrite Hq.
    repeat match goal with
           | |- context [truthy_opt ?x] => destruct (truthy_opt x)
           | |- context [truthy ?x] => destruct (truthy x)
           end; cbn; tauto. }
  unfold on_ask_question. cbv zeta.
  destruct (ask_checks _ _ _ _) as [valid log]. cbn [fst snd] in *. subst valid.
  auto.
Qed.

Lemma on_ask_question_blocked_witness :
  In (shown (st_error (lit "Please enter your Question.")))
     (snd (on_ask_question (ready_page [] (inr plain_response)) []
             (lit "Engineer") (lit "Acme") (lit "Build things"))).
Proof.
  apply (on_ask_question_blocked (ready_page [] (inr plain_response)) []
           (lit "Engineer") (lit "Acme") (lit "Build things"));
    reflexivity.
Defined.

(** X20. The preview of the sidebar names the number of repositories
    that were fetched but lists at most five of them: after the line with
    the count come at most fifteen widgets, three at most for each listed
    repository, and the README snippet of a caption is cut to 150
    characters. *)
Theorem sidebar_preview_bounds (pw : page_world) (username : str)
    (repos_preview : list repo_info) (log : list page_event) :
  session_state (base pw) !! "github_username"%string = Some username ->
  username <> [] ->
  fetch_or_refetch pw [] username (session_state (base pw) !! "github_pat"%string)
    = (repos_preview, log) ->
  repos_preview <> [] ->
  exists items,
    sidebar_preview pw true =
      [st_spinner (lit "Fetching GitHub data for '" ++ username ++ lit "' preview...")] ++
      log ++
      [st_write (lit "Found " ++ of_nat (length repos_preview) ++
                 lit " relevant repositories:")] ++ items /\
    length items <= 15 /\
    Forall (fun pe => forall body, pe = st_caption body -> length body <= 169) items.
Proof.
  intros Hu Hne Hf Hd. unfold sidebar_preview. cbv zeta. unfold str in *.
  rewrite Hu. cbn [truthy_opt default]. destruct username as [|c u]; [congruence|].
  cbn [truthy id]. rewrite Hf. destruct repos_preview as [|r d]; [congruence|].
  cbn [truthy_list]. eexists. split; [reflexivity|].
  assert (Hitem : forall item,
            length (preview_item item) <= 3 /\
            Forall (fun pe => forall body, pe = st_caption body -> length body <= 169)
              (preview_item item)).
  { intros item. unfold preview_item. destruct (truthy (info_readme item)).
    - split; [cbn; lia|]. cbn [app].
      apply Forall_cons. split; [intros body H; discriminate H|].
      apply Forall_cons. split.
      + intros body [= <-]. cbn [length]. rewrite length_app, length_take.
        cbn [length]. lia.
      + apply Forall_cons. split; [intros body H; discriminate H | constructor].
    - split; [cbn; lia|]. cbn [app].
      apply Forall_cons. split; [intros body H; discriminate H|].
      apply Forall_cons. split; [intros body H; discriminate H | constructor]. }
  generalize (take 5 (r :: d)) (firstn_le_length 5 (r :: d)).
  intros l Hl. induction l as [|item l IH]; cbn [flat_map].
  - split; [cbn; lia | constructor].
  - destruct (Hitem item) as [H3 Hcap]. cbn [length] in Hl.
    destruct IH as [IH1 IH2]; [lia|].
    rewrite length_app. split.
    + assert (length (flat_map preview_item l) <= 3 * length l).
      { clear -Hitem. induction l as [|i l IH]; cbn [flat_map length]; [lia|].
        rewrite length_app. destruct (Hitem i). lia. }
      lia.
    + apply Forall_app. split; assumption.
Qed.

Lemma sidebar_preview_bounds_witness :
  exists items,
    sidebar_preview (ready_page (lit "octocat") (inr [])) true =
      [st_spinner (lit "Fetching GitHub data for '" ++ lit "octocat" ++ lit "' preview...")] ++
      snd (fetch_or_refetch (ready_page (lit "octocat") (inr [])) [] (lit "octocat")
             (Some (lit "token"))) ++
      [st_write (lit "Found " ++
                 of_nat (length (fst (fetch_or_refetch
                                        (ready_page (lit "octocat") (inr [])) []
                                        (lit "octocat") (Some (lit "token"))))) ++
                 lit " relevant repositories:")] ++ items /\
    length items <= 15 /\
    Forall (fun pe => forall body, pe = st_caption body -> length body <= 169) items.
Proof.
  apply (sidebar_preview_bounds (ready_page (lit "octocat") (inr [])) (lit "octocat")).
  - reflexivity.
  - discriminate.
  - vm_compute. reflexivity.
  - vm_compute. discriminate.
Defined.


(** ** The launcher *)

Section Launch.

Import Launcher.

Variable o : os.

Lemma force_kill_kills (p : process) (e : exn) : In (call_kill (pid p)) (force_kill p e).
Proof. right. left. reflexivity. Qed.

(** X21. [cleanup] resorts to [kill] exactly when the orderly way
    failed on that run: [taskkill] on Windows, [terminate] or the wait
    after it elsewhere. It waits only after a [terminate] that succeeded,
    and without a process it does nothing. *)
Theorem cleanup_forces_kill (run : nat) (p : process) :
  (In (call_kill (pid p)) (cleanup o run (Some p)) <-> cleanup_failed o run p) /\
  (In (call_wait (pid p)) (cleanup o run (Some p)) ->
   is_nt o = false /\ exists u, terminate_result p run = inr u) /\
  cleanup o run None = [].
Proof.
  unfold cleanup, cleanup_failed. split; [|split; [|reflexivity]].
  - destruct (is_nt o).
    + destruct (taskkill_result o (pid p) run) as [e|u]; cbn; split.
      * intros _. eauto.
      * intros _. tauto.
      * intros [H | [H | []]]; discriminate H.
      * intros [e H]. discriminate H.
    + destruct (terminate_result p run) as [e|u]; cbn.
      * split; [intros _; left; eauto | tauto].
      * destruct (wait_result p run) as [e|u']; cbn.
        -- split; [intros _; right; eauto | tauto].
        -- split.
           ++ intros [H | [H | [H | []]]]; discriminate H.
           ++ intros [[e H] | [e H]]; discriminate H.
  - destruct (is_nt o).
    + destruct (taskkill_result o (pid p) run) as [e|u]; cbn;
        intros H; intuition discriminate.
    + destruct (terminate_result p run) as [e|u]; cbn.
      * intros H; intuition discriminate.
      * intros _. split; [reflexivity | eauto].
Qed.

(** The events of a run of [cleanup] on a process begin with its
    announcement. *)
Lemma cleanup_announced (run : nat) (p : process) :
  exists log,
    cleanup o run (Some p) =
      logger_info (lit "Terminating Streamlit process...") :: log.
Proof. unfold cleanup. eexists. reflexivity. Qed.

End Launch.

Lemma cleanup_forces_kill_witness :
  In (Launcher.call_kill 4242) (Launcher.cleanup example_os 0 (Some stubborn_process)).
Proof.
  apply (proj1 (cleanup_forces_kill example_os 0 stubborn_process)).
  left. eexists. reflexivity.
Defined.

(** X22. [main] opens the window only on a server that is up: a window
    among its events means that a free port was found, that
    [run_streamlit] gave a process and that the port answered in time, and
    the window is the one for that port. *)
Theorem main_window_only_when_ready (o : Launcher.os) (ev : Launcher.os_event) :
  In ev (snd (Launcher.main o)) ->
  Launcher.is_window ev ->
  exists port p,
    Launcher.find_free_port o = inr port /\
    fst (Launcher.run_streamlit o (lit "app.py") port) = Some p /\
    Launcher.port_answers o port = true /\
    ev = Launcher.window port.
Proof.
  unfold Launcher.main. cbv zeta.
  destruct (Launcher.find_free_port o) as [e|port] eqn:Ep.
  - intros [<- | []] [].
  - assert (Hrun : forall ev', In ev' (snd (Launcher.run_streamlit o (lit "app.py") port)) ->
              ~ Launcher.is_window ev').
    { unfold Launcher.run_streamlit. cbv zeta. destruct (negb _); cbn.
      - intros ev' [<- | [<- | []]] [].
      - destruct (Launcher.Popen o _); cbn;
          intros ev' H; repeat destruct H as [<- | H]; try intros []; destruct H. }
    assert (Hclean : forall run q ev', In ev' (Launcher.cleanup o run q) ->
              ~ Launcher.is_window ev').
    { intros run [q|] ev'; [|intros []]. unfold Launcher.cleanup, Launcher.force_kill.
      destruct (Launcher.is_nt o).
      - destruct (Launcher.taskkill_result o _ run); cbn;
          intros H; repeat destruct H as [<- | H]; try intros []; destruct H.
      - destruct (Launcher.terminate_result q run); cbn;
          [|destruct (Launcher.wait_result q run); cbn];
          intros H; repeat destruct H as [<- | H]; try intros []; destruct H. }
    assert (Hwait : forall ev', In ev' (snd (Launcher.wait_for_streamlit o port)) ->
              ~ Launcher.is_window ev').
    { unfold Launcher.wait_for_streamlit. cbv zeta. destruct (Launcher.port_answers o port);
        cbn; intros ev' [<- | [<- | []]] []. }
    destruct (Launcher.run_streamlit o (lit "app.py") port) as [[p|] log] eqn:Er;
      cbn [fst snd] in *.
    + pose proof (Hclean 0 (Some p)) as Hc0. pose proof (Hclean 1 (Some p)) as Hc1.
      set (c0 := Launcher.cleanup o 0 (Some p)) in *.
      set (c1 := Launcher.cleanup o 1 (Some p)) in *. clearbody c0 c1.
      unfold Launcher.wait_for_streamlit in *. cbv zeta in *.
      destruct (Launcher.port_answers o port) eqn:Ea; cbn [negb fst snd] in *.
      * intros Hin Hw. exists port, p. rewrite Er, Ea.
        do 3 (split; [reflexivity|]).
        destruct (Launcher.create_window_result o) as [[e| |]|];
          [| | |destruct (Launcher.webview_start_result o) as [[e| |]|]];
          cbn [Launcher.except_Exception fst snd] in Hin;
          repeat first [destruct Hin as [<- | Hin]
                       | apply in_app_or in Hin as [Hin | Hin]];
          solve [reflexivity | destruct Hw | destruct Hin
                | exfalso; eapply Hrun; eassumption
                | exfalso; eapply Hc0; eassumption].
      * intros Hin Hw. exfalso.
        repeat first [destruct Hin as [<- | Hin]
                     | apply in_app_or in Hin as [Hin | Hin]];
          solve [destruct Hw | destruct Hin
                | eapply Hrun; eassumption
                | eapply Hc0; eassumption
                | eapply Hc1; eassumption].
    + intros Hin Hw. exfalso.
      repeat first [destruct Hin as [<- | Hin]
                   | apply in_app_or in Hin as [Hin | Hin]];
        solve [destruct Hw | destruct Hin | eapply Hrun; eassumption].
Qed.

Lemma main_window_only_when_ready_witness :
  exists port p,
    Launcher.find_free_port example_os = inr port /\
    fst (Launcher.run_streamlit example_os (lit "app.py") port) = Some p /\
    Launcher.port_answers example_os port = true /\
    Launcher.window 8501 = Launcher.window port.
Proof.
  apply (main_window_only_when_ready example_os (Launcher.window 8501)).
  - vm_compute. do 6 right. left. reflexivity.
  - exact I.
Defined.



(** X24. When the server does not answer in time, [main] opens no
    window and runs [cleanup] twice on the process it started: once in
    the branch that gives up and once more in the [finally] clause. *)
Theorem main_timeout_cleans_twice (o : Launcher.os) (port : nat) (p : Launcher.process) :
  Launcher.find_free_port o = inr port ->
  fst (Launcher.run_streamlit o (lit "app.py") port) = Some p ->
  Launcher.port_answers o port = false ->
  exists before,
    snd (Launcher.main o) =
      before ++
      [Launcher.logger_error (lit "Streamlit failed to start in time")] ++
      Launcher.cleanup o 0 (Some p) ++ Launcher.cleanup o 1 (Some p) ++
      [Launcher.logger_info (lit "Application closed")] /\
    Forall (fun ev => ~ Launcher.is_window ev) (snd (Launcher.main o)).
Proof.
  intros Ep Er Ea.
  assert (Hclean : forall run, Forall (fun ev => ~ Launcher.is_window ev)
                                 (Launcher.cleanup o run (Some p))).
  { intros run. unfold Launcher.cleanup, Launcher.force_kill.
    destruct (Launcher.is_nt o).
    - destruct (Launcher.taskkill_result o _ run); cbn;
        repeat (apply Forall_cons; split; [intros [] |]); apply Forall_nil; exact I.
    - destruct (Launcher.terminate_result p run); cbn;
        [|destruct (Launcher.wait_result p run); cbn];
        repeat (apply Forall_cons; split; [intros [] |]); apply Forall_nil; exact I. }
  assert (Hrun : Forall (fun ev => ~ Launcher.is_window ev)
                   (snd (Launcher.run_streamlit o (lit "app.py") port))).
  { unfold Launcher.run_streamlit. cbv zeta. destruct (negb _); cbn.
    - repeat (apply Forall_cons; split; [intros [] |]). apply Forall_nil; exact I.
    - destruct (Launcher.Popen o _); cbn;
        repeat (apply Forall_cons; split; [intros [] |]); apply Forall_nil; exact I. }
  unfold Launcher.main. cbv zeta. rewrite Ep.
  destruct (Launcher.run_streamlit o (lit "app.py") port) as [q log].
  cbn [fst snd] in Er, Hrun. subst q.
  unfold Launcher.wait_for_streamlit. cbv zeta. rewrite Ea. cbn [negb fst snd].
  match goal with
  | |- context [?s ++ log ++ ?a ++ ?w ++ ?err ++
                Launcher.cleanup o 0 (Some p) ++ _] =>
      exists (s ++ log ++ a ++ w)
  end.
  split.
  - rewrite <- !app_assoc. reflexivity.
  - pose proof (Hclean 0) as Hc0. pose proof (Hclean 1) as Hc1.
    set (c0 := Launcher.cleanup o 0 (Some p)) in *.
    set (c1 := Launcher.cleanup o 1 (Some p)) in *. clearbody c0 c1.
    repeat (apply Forall_app; split);
      first [ exact Hrun | exact Hc0 | exact Hc1
            | repeat (apply Forall_cons; split; [intros [] |]);
              apply Forall_nil; exact I ].
Qed.

Lemma main_timeout_cleans_twice_witness :
  exists before,
    snd (Launcher.main slow_os) =
      before ++
      [Launcher.logger_error (lit "Streamlit failed to start in time")] ++
      Launcher.cleanup slow_os 0 (Some stubborn_process) ++
      Launcher.cleanup slow_os 1 (Some stubborn_process) ++
      [Launcher.logger_info (lit "Application closed")] /\
    Forall (fun ev => ~ Launcher.is_window ev) (snd (Launcher.main slow_os)).
Proof.
  apply (main_timeout_cleans_twice slow_os 8501 stubborn_process); reflexivity.
Defined.
